(** * canva_3d_poc: the texture-mapping preview of [src/App.tsx]

    A shallow embedding of the React component [App], of the scene composer
    [Scene] and of the four object presenters [Box], [Cylinder], [Mug] and
    [Shirt], together with the part of the host environment the component
    relies on: the blob URL store behind [URL.createObjectURL], the string
    search of [String.prototype.match], the colour styles of the 3D library
    and the keyed reconciliation that mounts and unmounts component
    instances.

    Loading is taken as settled: a committed tree is the one shown once the
    [Suspense] boundary has let the scene through.  A texture load that fails
    makes [useTexture] throw; [App] has no error boundary, so the whole tree
    is then unmounted.  The two bundled models are taken to load. *)

From Stdlib Require Import Bool List String Ascii ZArith Lia PeanoNat.
Import ListNotations.
Local Open Scope string_scope.

Set Implicit Arguments.

(** ** Data model *)

(** [type ObjectType = "box" | "sphere" | "cylinder" | "mug" | "shirt"]. *)
Inductive ObjectType : Type := box | sphere | cylinder | mug | shirt.

Definition ObjectType_eqb (a b : ObjectType) : bool :=
  match a, b with
  | box, box | sphere, sphere | cylinder, cylinder | mug, mug | shirt, shirt => true
  | _, _ => false
  end.

Definition ObjectType_eq_dec (a b : ObjectType) : {a = b} + {a <> b}.
Proof. decide equality. Defined.

(** A [THREE.Texture] handle.  The loader caches by URL, so a handle is
    identified by the URL its image was loaded from. *)
Record Texture : Type := mkTexture { image_src : string }.

Definition Texture_eq_dec (a b : Texture) : {a = b} + {a <> b}.
Proof. decide equality. apply string_dec. Defined.

(** [interface SceneProps]. *)
Record SceneProps : Type := mkSceneProps {
  sp_textureUrl : option string;
  sp_selectedObject : ObjectType;
  sp_darkMode : bool
}.

(** [interface ObjectProps]. *)
Record ObjectProps : Type := mkObjectProps {
  texture : option Texture;
  op_darkMode : bool
}.

(** The three [useState] cells of [App]. *)
Record AppState : Type := mkAppState {
  textureUrl : option string;
  selectedObject : ObjectType;
  darkMode : bool
}.

(** [useState(null)], [useState("box")] and
    [useState(window.matchMedia("(prefers-color-scheme: dark)").matches)]:
    the media query is read once and handed in as [prefersDark]. *)
Definition initialState (prefersDark : bool) : AppState :=
  mkAppState None box prefersDark.

Definition setTextureUrl (url : string) (s : AppState) : AppState :=
  mkAppState (Some url) (selectedObject s) (darkMode s).

Definition setSelectedObject (o : ObjectType) (s : AppState) : AppState :=
  mkAppState (textureUrl s) o (darkMode s).

Definition setDarkMode (b : bool) (s : AppState) : AppState :=
  mkAppState (textureUrl s) (selectedObject s) b.

(** ** [String.prototype.match] with a string pattern

    [s.match(p)] with a string [p] searches [s] for [new RegExp(p)].  The
    pattern language is restricted to what the source uses: literal
    characters, [.] and a postfix [*]. *)
Module RegExp.

Inductive Atom : Type := Lit (c : ascii) | Dot.

(** One pattern item: an atom, starred or not. *)
Definition Item : Type := (Atom * bool)%type.

Definition is_star (c : ascii) : bool := Ascii.eqb c "*"%char.
Definition is_dot (c : ascii) : bool := Ascii.eqb c "."%char.

Definition atom_of (c : ascii) : Atom := if is_dot c then Dot else Lit c.

Fixpoint parse (p : string) : list Item :=
  match p with
  | EmptyString => []
  | String c rest =>
      match rest with
      | String d rest' =>
          if is_star d then (atom_of c, true) :: parse rest'
          else (atom_of c, false) :: parse rest
      | EmptyString => [(atom_of c, false)]
      end
  end.

(** [.] matches any character but a line terminator. *)
Definition line_terminator (c : ascii) : bool :=
  Ascii.eqb c "010"%char || Ascii.eqb c "013"%char.

Definition atom_matches (a : Atom) (c : ascii) : bool :=
  match a with
  | Lit l => Ascii.eqb l c
  | Dot => negb (line_terminator c)
  end.

Fixpoint match_here (re : list Item) (text : string) {struct re} : bool :=
  match re with
  | [] => true
  | (a, false) :: re' =>
      match text with
      | String c t => atom_matches a c && match_here re' t
      | EmptyString => false
      end
  | (a, true) :: re' =>
      (fix star (t : string) : bool :=
         match_here re' t
         || match t with
            | String c t' => atom_matches a c && star t'
            | EmptyString => false
            end) text
  end.

(** An unanchored search: the pattern may start at any index. *)
Fixpoint search (re : list Item) (text : string) : bool :=
  match_here re text
  || match text with
     | String _ t => search re t
     | EmptyString => false
     end.

End RegExp.

(** Truthiness of [s.match(p)]: an array when the search succeeds, [null]
    otherwise. *)
Definition String_match (s p : string) : bool := RegExp.search (RegExp.parse p) s.

(** ** The file input *)

(** A DOM [File]: the two attributes a picker reports, and of its bytes
    whether the browser's image decoder accepts them. *)
Record File : Type := mkFile {
  file_name : string;
  file_type : string;
  file_decodes : bool
}.

(** [React.ChangeEvent<HTMLInputElement>]: [event.target.files] is a
    [FileList] or [null]. *)
Record FileChangeEvent : Type := mkFileChangeEvent { files : option (list File) }.

(** [event.target.files?.[0]]. *)
Definition first_file (event : FileChangeEvent) : option File :=
  match files event with
  | Some l => hd_error l
  | None => None
  end.

(** The browser's blob URL store: the URLs it has handed out, latest first,
    each with the file it stands for. *)
Definition BlobStore : Type := list (string * File).

Definition blob_urls (store : BlobStore) : list string := List.map fst store.

(** The file a URL stands for, if the store has the URL. *)
Fixpoint resolve (url : string) (store : BlobStore) : option File :=
  match store with
  | [] => None
  | (u, file) :: rest => if String.eqb u url then Some file else resolve url rest
  end.

(** [URL.createObjectURL(file)]: a URL of the [blob:] scheme ending in an
    identifier the browser generates, here [uuid], is registered for [file]
    and returned. *)
Definition createObjectURL (uuid : string) (file : File) (store : BlobStore)
  : string * BlobStore :=
  let url := "blob:" ++ uuid in (url, (url, file) :: store).

(** [useTexture(url)], once the load has settled: the texture of the URL
    when the URL stands for a file whose bytes decode; when the URL stands
    for nothing or the bytes do not decode the hook throws, which is
    [None]. *)
Definition useTexture (store : BlobStore) (url : string) : option Texture :=
  match resolve url store with
  | Some file => if file_decodes file then Some (mkTexture url) else None
  | None => None
  end.

(** [handleFileChange], with the blob store threaded through. *)
Definition handleFileChange (uuid : string) (event : FileChangeEvent)
    (st : BlobStore * AppState) : BlobStore * AppState :=
  let (store, s) := st in
  match first_file event with
  | Some file =>
      if String_match (file_type file) "image.*" then
        let (url, store') := createObjectURL uuid file store in
        (store', setTextureUrl url s)
      else (store, s)
  | None => (store, s)
  end.

(** [handleObjectChange]: [event.target.value as ObjectType]. *)
Definition handleObjectChange (value : ObjectType) (s : AppState) : AppState :=
  setSelectedObject value s.

(** [toggleDarkMode]. *)
Definition toggleDarkMode (s : AppState) : AppState :=
  setDarkMode (negb (darkMode s)) s.

(** The [<option>] values the [<select>] offers, in document order. *)
Definition select_options : list ObjectType := [box; cylinder; mug; shirt].

(** ** Colours

    The 3D library turns a colour style string into a 24-bit RGB value: a
    [#rrggbb] or [#rgb] hexadecimal literal, or a keyword of its table. *)
Module Color.

Local Open Scope Z_scope.

Definition hex_digit (c : ascii) : option Z :=
  let n := Z.of_nat (nat_of_ascii c) in
  if (48 <=? n) && (n <=? 57) then Some (n - 48)
  else if (97 <=? n) && (n <=? 102) then Some (n - 87)
  else if (65 <=? n) && (n <=? 70) then Some (n - 55)
  else None.

Fixpoint hex_digits (s : string) : option (list Z) :=
  match s with
  | EmptyString => Some []
  | String c rest =>
      match hex_digit c, hex_digits rest with
      | Some d, Some ds => Some (d :: ds)
      | _, _ => None
      end
  end.

(** Excerpt of the library's keyword table. *)
Definition colorKeywords : list (string * Z) :=
  [("black", 0x000000); ("gray", 0x808080); ("silver", 0xC0C0C0);
   ("white", 0xFFFFFF)].

Fixpoint lookup (name : string) (table : list (string * Z)) : option Z :=
  match table with
  | [] => None
  | (k, v) :: rest => if String.eqb k name then Some v else lookup name rest
  end.

Definition setStyle (style : string) : option Z :=
  match style with
  | String "#" body =>
      match hex_digits body with
      | Some [r; g; b] =>
          Some (Z.lor (Z.shiftl (17 * r) 16) (Z.lor (Z.shiftl (17 * g) 8) (17 * b)))
      | Some [r1; r0; g1; g0; b1; b0] =>
          Some (Z.lor (Z.shiftl (16 * r1 + r0) 16)
                  (Z.lor (Z.shiftl (16 * g1 + g0) 8) (16 * b1 + b0)))
      | _ => None
      end
  | _ => lookup style colorKeywords
  end.

Definition red (hex : Z) : Z := Z.land (Z.shiftr hex 16) 255.
Definition green (hex : Z) : Z := Z.land (Z.shiftr hex 8) 255.
Definition blue (hex : Z) : Z := Z.land hex 255.

(** A material's colour when no [color] is given. *)
Definition default : Z := 0xFFFFFF.

(** Brightness of a colour, as the weighted channel sum of the usual luma
    formula, in thousandths of a channel unit: from 0 to 255000. *)
Definition luma (hex : Z) : Z := 299 * red hex + 587 * green hex + 114 * blue hex.

(** A tone is light when its brightness is in the upper half of the scale,
    dark otherwise. *)
Definition light_tone (hex : Z) : bool := 127500 <=? luma hex.
Definition dark_tone (hex : Z) : bool := luma hex <? 127500.

End Color.

(** ** Scene graph *)

(** Where a material is attached on its parent mesh: [attach="material"],
    which is also what a material gets when [attach] is omitted, or
    [attach="material-i"]. *)
Inductive Attach : Type := material | material_ (i : nat).

(** The props of a [<meshStandardMaterial>] element, as written: an omitted
    [color] or [map] is [None]; [map={texture}] with a [null] texture is
    [Some None]. *)
Record meshStandardMaterial : Type := mkMaterial {
  attach : Attach;
  color : option string;
  map : option (option Texture)
}.

Inductive Geometry : Type :=
| boxGeometry (width height depth : Z)
| cylinderGeometry (radiusTop radiusBottom height radialSegments : Z)
| nodeGeometry (model node : string).

(** A [<mesh>]: its geometry and its material children, in source order. *)
Record mesh : Type := mkMesh {
  geometry : Geometry;
  materials : list meshStandardMaterial
}.

(** What a presenter returns: one [<mesh>], or a [<group>] of meshes.
    Transforms and shadow flags play no part in material binding and are
    left out. *)
Inductive SceneNode : Type :=
| Mesh (m : mesh)
| Group (children : list mesh).

Definition meshes (n : SceneNode) : list mesh :=
  match n with
  | Mesh m => [m]
  | Group ms => ms
  end.

(** The [material] property of a mesh object: the renderer's default, one
    material, or an array with holes. *)
Inductive MeshMaterial : Type :=
| default_material
| single (m : meshStandardMaterial)
| multi (arr : list (option meshStandardMaterial)).

(** [arr[i] = x] on a JS array: longer arrays are overwritten in place,
    shorter ones are extended with holes. *)
Fixpoint array_set {A : Type} (i : nat) (x : A) (arr : list (option A))
  : list (option A) :=
  match i, arr with
  | O, [] => [Some x]
  | O, _ :: rest => Some x :: rest
  | S j, [] => None :: array_set j x []
  | S j, h :: rest => h :: array_set j x rest
  end.

(** Attaching one material child: [material] replaces the property;
    [material-i] first makes the property an array if it is not one. *)
Definition attach_material (mm : MeshMaterial) (m : meshStandardMaterial)
  : MeshMaterial :=
  match attach m with
  | material => single m
  | material_ i =>
      multi (array_set i m (match mm with multi arr => arr | _ => [] end))
  end.

Definition mesh_material (m : mesh) : MeshMaterial :=
  fold_left attach_material (materials m) default_material.

(** The material a geometry group with material index [i] is drawn with. *)
Definition group_material (mm : MeshMaterial) (i : nat)
  : option meshStandardMaterial :=
  match mm with
  | default_material => None
  | single m => Some m
  | multi arr => match nth_error arr i with Some (Some m) => Some m | _ => None end
  end.

(** The materials in use on a mesh. *)
Definition used_materials (mm : MeshMaterial) : list meshStandardMaterial :=
  match mm with
  | default_material => []
  | single m => [m]
  | multi arr => flat_map (fun o => match o with Some m => [m] | None => [] end) arr
  end.

(** The surface regions of a presenter's output, each by its material. *)
Definition regions (n : SceneNode) : list meshStandardMaterial :=
  flat_map (fun m => used_materials (mesh_material m)) (meshes n).

(** A region is texture-designated when its material is given a [map]. *)
Definition textured (m : meshStandardMaterial) : bool :=
  match map m with Some _ => true | None => false end.

(** The texture a material ends up with: [null] unless a texture is given. *)
Definition bound_texture (m : meshStandardMaterial) : option Texture :=
  match map m with Some t => t | None => None end.

(** The colour a material ends up with: a style the library cannot read
    leaves the default in place. *)
Definition material_color (m : meshStandardMaterial) : Z :=
  match color m with
  | Some style =>
      match Color.setStyle style with Some hex => hex | None => Color.default end
  | None => Color.default
  end.

(** The six sides of a box geometry and the material index of each one's
    group. *)
Inductive BoxFace : Type := px | nx | py | ny | pz | nz.

Definition box_faces : list BoxFace := [px; nx; py; ny; pz; nz].

Definition BoxFace_index (f : BoxFace) : nat :=
  match f with px => 0 | nx => 1 | py => 2 | ny => 3 | pz => 4 | nz => 5 end.

(** The three groups of a cylinder geometry. *)
Inductive CylinderPart : Type := lateral | top_cap | bottom_cap.

Definition CylinderPart_index (p : CylinderPart) : nat :=
  match p with lateral => 0 | top_cap => 1 | bottom_cap => 2 end.

(** ** Object presenters *)

Definition Box (props : ObjectProps) : SceneNode :=
  let texture := texture props in
  let darkMode := op_darkMode props in
  Mesh (mkMesh (boxGeometry 2 2 2)
    [ mkMaterial (material_ 0) (Some (if darkMode then "white" else "#e2e8f0")) None;
      mkMaterial (material_ 1) (Some (if darkMode then "white" else "#e2e8f0")) None;
      mkMaterial (material_ 2) (Some (if darkMode then "white" else "#e2e8f0")) None;
      mkMaterial (material_ 3) (Some (if darkMode then "white" else "#e2e8f0")) None;
      mkMaterial (material_ 4) None (Some texture);
      mkMaterial (material_ 5) (Some (if darkMode then "white" else "#e2e8f0")) None ]).

Definition Cylinder (props : ObjectProps) : SceneNode :=
  let texture := texture props in
  let darkMode := op_darkMode props in
  Mesh (mkMesh (cylinderGeometry 1 1 2 32)
    [ mkMaterial (material_ 0) None (Some texture);
      mkMaterial (material_ 1) (Some (if darkMode then "white" else "#e2e8f0")) None;
      mkMaterial (material_ 2) (Some (if darkMode then "white" else "#e2e8f0")) None ]).

Definition Mug (props : ObjectProps) : SceneNode :=
  let texture := texture props in
  let darkMode := op_darkMode props in
  Group
    [ mkMesh (nodeGeometry "plain_mug.glb" "Object_2")
        [ mkMaterial material
            (Some (if darkMode then "white" else "#e2e8f0")) (Some texture) ] ].

Definition Shirt (props : ObjectProps) : SceneNode :=
  let texture := texture props in
  let darkMode := op_darkMode props in
  Group
    [ mkMesh (nodeGeometry "long_sleeve_t_shirt.glb"
                "Long_Sleeve_T-Shirt_Bahan_Dasar_FRONT_2657_0")
        [ mkMaterial material None (Some texture) ];
      mkMesh (nodeGeometry "long_sleeve_t_shirt.glb"
                "Long_Sleeve_T-Shirt_Bahan_Dasar_FRONT_2657_0_1")
        [ mkMaterial material (Some (if darkMode then "#222222" else "#ffffff")) None ];
      mkMesh (nodeGeometry "long_sleeve_t_shirt.glb"
                "Long_Sleeve_T-Shirt_Material2868_0")
        [ mkMaterial material (Some (if darkMode then "#222222" else "#ffffff")) None ];
      mkMesh (nodeGeometry "long_sleeve_t_shirt.glb"
                "Long_Sleeve_T-Shirt_Material2868_0_1")
        [ mkMaterial material (Some (if darkMode then "#222222" else "#ffffff")) None ] ].

(** The function components a scene can hold. *)
Inductive Component : Type := cBox | cCylinder | cMug | cShirt.

Definition Component_eqb (a b : Component) : bool :=
  match a, b with
  | cBox, cBox | cCylinder, cCylinder | cMug, cMug | cShirt, cShirt => true
  | _, _ => false
  end.

Definition render (c : Component) : ObjectProps -> SceneNode :=
  match c with
  | cBox => Box
  | cCylinder => Cylinder
  | cMug => Mug
  | cShirt => Shirt
  end.

(** The presenter the scene pairs with an object kind; none for [sphere]. *)
Definition presenter_of (o : ObjectType) : option Component :=
  match o with
  | box => Some cBox
  | cylinder => Some cCylinder
  | mug => Some cMug
  | shirt => Some cShirt
  | sphere => None
  end.

(** ** Scene composer *)

(** A React element [<C texture={..} darkMode={..} />]. *)
Record Element : Type := mkElement { el_type : Component; el_props : ObjectProps }.

(** JS truthiness of a [string | null]. *)
Definition truthy (u : option string) : bool :=
  match u with
  | Some EmptyString => false
  | Some _ => true
  | None => false
  end.

(** The fragment [Scene] returns, given the texture of its first line: one
    slot per [cond && <C .../>]; a [false] child is [None]. *)
Definition Scene_fragment (texture : option Texture) (selectedObject : ObjectType)
    (darkMode : bool) : list (option Element) :=
  [ if ObjectType_eqb selectedObject box
    then Some (mkElement cBox (mkObjectProps texture darkMode)) else None;
    if ObjectType_eqb selectedObject cylinder
    then Some (mkElement cCylinder (mkObjectProps texture darkMode)) else None;
    if ObjectType_eqb selectedObject mug
    then Some (mkElement cMug (mkObjectProps texture darkMode)) else None;
    if ObjectType_eqb selectedObject shirt
    then Some (mkElement cShirt (mkObjectProps texture darkMode)) else None ].

(** [Scene]: [textureUrl ? useTexture(textureUrl) : null], then the
    fragment.  The hook reads the browser's blob store; when it throws, so
    does [Scene], which is [None]. *)
Definition Scene (store : BlobStore) (props : SceneProps)
  : option (list (option Element)) :=
  let textureUrl := sp_textureUrl props in
  let selectedObject := sp_selectedObject props in
  let darkMode := sp_darkMode props in
  match
    match textureUrl with
    | Some url =>
        if truthy textureUrl then option_map Some (useTexture store url)
        else Some None
    | None => Some None
    end
  with
  | Some texture => Some (Scene_fragment texture selectedObject darkMode)
  | None => None
  end.


(** The elements a fragment really holds. *)
Definition present {A : Type} (slots : list (option A)) : list A :=
  flat_map (fun o => match o with Some x => [x] | None => [] end) slots.

(** The presenters [Scene] composes; none when it throws. *)
Definition composed (store : BlobStore) (props : SceneProps) : list Element :=
  match Scene store props with
  | Some slots => present slots
  | None => []
  end.

(** The [<Scene key={textureUrl} ... />] element of [App]'s output. *)
Record SceneElement : Type := mkSceneElement {
  key : string;
  scene_props : SceneProps
}.

(** React stores a key as a string: [key={k}] becomes ['' + k]. *)
Definition key_string (k : option string) : string :=
  match k with
  | Some u => u
  | None => "null"
  end.

Definition App (s : AppState) : SceneElement :=
  mkSceneElement (key_string (textureUrl s))
    (mkSceneProps (textureUrl s) (selectedObject s) (darkMode s)).

(** ** Mounting and unmounting

    React keeps one instance per mounted component.  On a re-render it
    compares each old instance with the element now at its place: same type
    and key, the instance stays and gets the new props; otherwise the old
    instance is unmounted with everything below it and a new one is
    mounted. *)

(** A mounted presenter instance. *)
Record Fiber : Type := mkFiber {
  fiber_id : nat;
  fiber_type : Component;
  fiber_props : ObjectProps
}.

(** The mounted [Scene] instance and the slots of its fragment. *)
Record SceneFiber : Type := mkSceneFiber {
  scene_id : nat;
  scene_key : string;
  scene_children : list (option Fiber)
}.

Inductive Effect : Type :=
| Mounted (id : nat)
| Updated (id : nat)
| Unmounted (id : nat).

(** Results carry the effects of the commit and the next unused instance
    id. *)
Definition Commit (A : Type) : Type := (A * list Effect * nat)%type.

Definition reconcileChild (old : option Fiber) (new : option Element) (next : nat)
  : Commit (option Fiber) :=
  match old, new with
  | None, None => (None, [], next)
  | None, Some e =>
      (Some (mkFiber next (el_type e) (el_props e)), [Mounted next], S next)
  | Some f, None => (None, [Unmounted (fiber_id f)], next)
  | Some f, Some e =>
      if Component_eqb (fiber_type f) (el_type e)
      then (Some (mkFiber (fiber_id f) (el_type e) (el_props e)),
            [Updated (fiber_id f)], next)
      else (Some (mkFiber next (el_type e) (el_props e)),
            [Unmounted (fiber_id f); Mounted next], S next)
  end.

Fixpoint mountChildren (news : list (option Element)) (next : nat)
  : Commit (list (option Fiber)) :=
  match news with
  | [] => ([], [], next)
  | n :: ns =>
      let '(c, e1, next1) := reconcileChild None n next in
      let '(cs, e2, next2) := mountChildren ns next1 in
      (c :: cs, (e1 ++ e2)%list, next2)
  end.

Fixpoint unmountChildren (olds : list (option Fiber)) : list Effect :=
  match olds with
  | [] => []
  | Some f :: os => Unmounted (fiber_id f) :: unmountChildren os
  | None :: os => unmountChildren os
  end.

(** Children without keys are matched by position. *)
Fixpoint reconcileChildren (olds : list (option Fiber))
    (news : list (option Element)) (next : nat) {struct olds}
  : Commit (list (option Fiber)) :=
  match olds with
  | [] => mountChildren news next
  | o :: os =>
      match news with
      | [] => ([], unmountChildren olds, next)
      | n :: ns =>
          let '(c, e1, next1) := reconcileChild o n next in
          let '(cs, e2, next2) := reconcileChildren os ns next1 in
          (c :: cs, (e1 ++ e2)%list, next2)
      end
  end.

(** Mounting a [Scene] whose render gave [slots]. *)
Definition mountScene (k : string) (slots : list (option Element)) (next : nat)
  : Commit SceneFiber :=
  let '(cs, effs, next') := mountChildren slots (S next) in
  (mkSceneFiber next k cs, Mounted next :: effs, next').

(** Unmounting a [Scene] with everything below it. *)
Definition unmountScene (old : SceneFiber) : list Effect :=
  Unmounted (scene_id old) :: unmountChildren (scene_children old).

(** Committing a [Scene] element with key [k] whose render gave [slots],
    where the instance [old] is. *)
Definition commitScene (old : SceneFiber) (k : string)
    (slots : list (option Element)) (next : nat) : Commit SceneFiber :=
  if String.eqb (scene_key old) k then
    let '(cs, effs, next') := reconcileChildren (scene_children old) slots next in
    (mkSceneFiber (scene_id old) k cs, Updated (scene_id old) :: effs, next')
  else
    let '(f, effs, next') := mountScene k slots next in
    (f, (unmountScene old ++ effs)%list, next').

(** Rendering the new element and committing it; [None] when the render
    throws. *)
Definition reconcileScene (store : BlobStore) (old : SceneFiber)
    (new : SceneElement) (next : nat) : option (Commit SceneFiber) :=
  match Scene store (scene_props new) with
  | Some slots => Some (commitScene old (key new) slots next)
  | None => None
  end.

(** ** The running application *)

(** [root] is the mounted [Scene] instance, or [None] once a render has
    thrown and the tree has been unmounted. *)
Record World : Type := mkWorld {
  app : AppState;
  blobs : BlobStore;
  root : option SceneFiber;
  next_id : nat;
  effects : list Effect  (* of the last commit *)
}.

Definition initialWorld (prefersDark : bool) : World :=
  let s := initialState prefersDark in
  match Scene [] (scene_props (App s)) with
  | Some slots =>
      let '(f, effs, next) := mountScene (key (App s)) slots 0 in
      mkWorld s [] (Some f) next effs
  | None => mkWorld s [] None 0 []
  end.

(** User actions.  A file-change event comes with the identifier the
    browser would generate for a blob URL at that moment. *)
Inductive Event : Type :=
| FileChange (event : FileChangeEvent) (uuid : string)
| ObjectChange (value : ObjectType)
| ThemeToggle.

(** What the DOM guarantees of an event: a generated identifier is new, and
    a [<select>] reports a change to one of its options. *)
Definition enabled (e : Event) (w : World) : Prop :=
  match e with
  | FileChange _ uuid => ~ In ("blob:" ++ uuid) (blob_urls (blobs w))
  | ObjectChange value => In value select_options /\ value <> selectedObject (app w)
  | ThemeToggle => True
  end.

Definition AppState_eq_dec (a b : AppState) : {a = b} + {a <> b}.
Proof.
  decide equality.
  - apply bool_dec.
  - apply ObjectType_eq_dec.
  - decide equality. apply string_dec.
Defined.

(** The handler an event runs. *)
Definition handle (e : Event) (st : BlobStore * AppState) : BlobStore * AppState :=
  match e with
  | FileChange event uuid => handleFileChange uuid event st
  | ObjectChange value => (fst st, handleObjectChange value (snd st))
  | ThemeToggle => (fst st, toggleDarkMode (snd st))
  end.

(** One event: the handler runs; if it changed the state, [App] re-renders
    and the scene is reconciled; if not, nothing is committed.  When the
    render throws, nothing catches the error and the tree is unmounted;
    with the tree gone no handler is left to run. *)
Definition dispatch (e : Event) (w : World) : World :=
  match root w with
  | None => mkWorld (app w) (blobs w) None (next_id w) []
  | Some r =>
      let (store', s') := handle e (blobs w, app w) in
      if AppState_eq_dec (app w) s'
      then mkWorld (app w) store' (Some r) (next_id w) []
      else
        match reconcileScene store' r (App s') (next_id w) with
        | Some (f, effs, next) => mkWorld s' store' (Some f) next effs
        | None => mkWorld s' store' None (next_id w) (unmountScene r)
        end
  end.

(** The worlds of the running application: from the start, by events whose
    commit leaves the tree mounted. *)
Inductive reachable : World -> Prop :=
| reachable_init (prefersDark : bool) : reachable (initialWorld prefersDark)
| reachable_step (w : World) (e : Event) :
    reachable w -> enabled e w -> root (dispatch e w) <> None ->
    reachable (dispatch e w).

(** [later w w']: [w'] comes about from [w] by zero or more events. *)
Inductive later (w : World) : World -> Prop :=
| later_refl : later w w
| later_step (w' : World) (e : Event) :
    later w w' -> enabled e w' -> later w (dispatch e w').

(** The presenter instances now mounted, and what they show. *)
Definition mounted (w : World) : list Fiber :=
  match root w with
  | Some r => present (scene_children r)
  | None => []
  end.

Definition shown (f : Fiber) : SceneNode := render (fiber_type f) (fiber_props f).

(** Every texture handle some material of the mounted scene holds. *)
Definition scene_textures (w : World) : list Texture :=
  flat_map (fun f => present (List.map bound_texture (regions (shown f)))) (mounted w).

(** All instance ids of the mounted scene subtree. *)
Definition mounted_ids (w : World) : list nat :=
  match root w with
  | Some r => scene_id r :: List.map fiber_id (mounted w)
  | None => []
  end.

(** ** Reading a presenter's output *)

(** The material on a face of the [Box] cube. *)
Definition Box_face (props : ObjectProps) (f : BoxFace) : option meshStandardMaterial :=
  match Box props with
  | Mesh m => group_material (mesh_material m) (BoxFace_index f)
  | Group _ => None
  end.

(** The material on a part of the [Cylinder]. *)
Definition Cylinder_part (props : ObjectProps) (p : CylinderPart)
  : option meshStandardMaterial :=
  match Cylinder props with
  | Mesh m => group_material (mesh_material m) (CylinderPart_index p)
  | Group _ => None
  end.

(** The sub-mesh of the shirt model the source calls the front surface. *)
Definition front_panel : Geometry :=
  nodeGeometry "long_sleeve_t_shirt.glb" "Long_Sleeve_T-Shirt_Bahan_Dasar_FRONT_2657_0".

Definition Geometry_eqb (a b : Geometry) : bool :=
  match a, b with
  | boxGeometry w h d, boxGeometry w' h' d' => (w =? w')%Z && (h =? h')%Z && (d =? d')%Z
  | cylinderGeometry a1 a2 a3 a4, cylinderGeometry b1 b2 b3 b4 =>
      (a1 =? b1)%Z && (a2 =? b2)%Z && (a3 =? b3)%Z && (a4 =? b4)%Z
  | nodeGeometry f n, nodeGeometry f' n' => String.eqb f f' && String.eqb n n'
  | _, _ => false
  end.

(** The sub-meshes of the [Shirt] on the front panel, and the others. *)
Definition Shirt_front (props : ObjectProps) : list mesh :=
  filter (fun m => Geometry_eqb (geometry m) front_panel) (meshes (Shirt props)).

Definition Shirt_others (props : ObjectProps) : list mesh :=
  filter (fun m => negb (Geometry_eqb (geometry m) front_panel)) (meshes (Shirt props)).




(** The flat colours of the source, as the library reads them. *)
Definition flat_tone (darkMode : bool) : Z :=
  if darkMode then 0xFFFFFF%Z else 0xE2E8F0%Z.

Definition shirt_tint (darkMode : bool) : Z :=
  if darkMode then 0x222222%Z else 0xFFFFFF%Z.

(** The media types the file input asks for, [accept="image/*"]: those of
    top-level type [image]. *)
Definition is_image_media_type (t : string) : bool := prefix "image/" t.

(** ** Invariants of the running application *)

(** The slots of a mounted scene that shows state [s], its one presenter
    instance bearing the id [fid]. *)
Definition slots (fid : nat) (s : AppState) : list (option Fiber) :=
  List.map (option_map (fun e => mkFiber fid (el_type e) (el_props e)))
    (Scene_fragment (option_map mkTexture (textureUrl s)) (selectedObject s)
       (darkMode s)).

(** The mounted tree is the committed output of [App] for the current state,
    with the [Scene] instance [sid] and the presenter instance [fid]. *)
Definition shaped (w : World) (sid fid : nat) : Prop :=
  root w = Some (mkSceneFiber sid (key_string (textureUrl (app w)))
                   (slots fid (app w)))
  /\ sid <> fid /\ sid < next_id w /\ fid < next_id w.

Record consistent (w : World) : Prop := mkConsistent {
  cons_shape : exists sid fid, shaped w sid fid;
  cons_url : forall u, textureUrl (app w) = Some u ->
                       In u (blob_urls (blobs w))
                       /\ exists uuid, u = "blob:" ++ uuid;
  cons_loaded : forall u, textureUrl (app w) = Some u ->
                          useTexture (blobs w) u = Some (mkTexture u);
  cons_kind : In (selectedObject (app w)) select_options
}.

(** A URL the application has moved on from: handed out, and not the
    current texture source. *)
Definition superseded (u : string) (w : World) : Prop :=
  In u (blob_urls (blobs w)) /\ textureUrl (app w) <> Some u.

(** The commit that led from [w] to [w'] was a full remount: every instance
    of [w] was unmounted, none updated in place, and every instance of [w']
    was newly mounted. *)
Definition remounted (w w' : World) : Prop :=
  Forall (fun id => In (Unmounted id) (effects w')
                    /\ ~ In (Updated id) (effects w')
                    /\ ~ In id (mounted_ids w'))
    (mounted_ids w)
  /\ Forall (fun id => In (Mounted id) (effects w') /\ ~ In id (mounted_ids w))
       (mounted_ids w').

(** The regions of a presenter's output with a [map], and those without. *)
Definition textured_regions (n : SceneNode) : list meshStandardMaterial :=
  filter textured (regions n).

Definition flat_regions (n : SceneNode) : list meshStandardMaterial :=
  filter (fun m => negb (textured m)) (regions n).

(** One presenter is mounted in [w]; it has a texture-designated region, and
    each such region holds [t]. *)
Definition shows (w : World) (t : option Texture) : Prop :=
  exists f, mounted w = [f]
            /\ textured_regions (shown f) <> []
            /\ Forall (fun m => bound_texture m = t) (textured_regions (shown f)).

(** From [w] on, the mounted scene never holds a texture of [old]. *)
Definition never_again (old : list Texture) (w : World) : Prop :=
  forall w', later w w' -> Forall (fun t => ~ In t (scene_textures w')) old.

(** ** The control panel and the canvas *)

(** The preview block of [App], [{textureUrl && (... <img src={textureUrl} />
    ...)}]: the [src] of the image, when the block is rendered. *)
Definition TexturePreview (s : AppState) : option string :=
  if truthy (textureUrl s) then textureUrl s else None.

(** The class of the outermost [<div>]:
    [`min-h-screen ${darkMode ? "dark" : ""}`]. *)
Definition rootClassName (s : AppState) : string :=
  "min-h-screen " ++ (if darkMode s then "dark" else "").

(** The style of the canvas background, [darkMode ? "#1a202c" : "#f7fafc"]. *)
Definition canvasBackground (s : AppState) : string :=
  if darkMode s then "#1a202c" else "#f7fafc".

(** The colour the [<color attach="background">] object gets. *)
Definition background_color (s : AppState) : Z :=
  match Color.setStyle (canvasBackground s) with
  | Some hex => hex
  | None => Color.default
  end.

(** The tokens of a [class] attribute: its maximal runs of characters other
    than a space; [cur] is the run being read. *)
Fixpoint class_tokens_from (cur : string) (s : string) : list string :=
  match s with
  | EmptyString => match cur with EmptyString => [] | _ => [cur] end
  | String c rest =>
      if Ascii.eqb c " "%char
      then match cur with
           | EmptyString => class_tokens_from "" rest
           | _ => cur :: class_tokens_from "" rest
           end
      else class_tokens_from (cur ++ String c "") rest
  end.

Definition class_tokens (s : string) : list string := class_tokens_from "" s.

(** The style sheet's dark variants are switched by class
    ([darkMode: "class"] in the style configuration): they apply below an
    element whose class list has [dark]. *)
Definition dark_variant_on (s : AppState) : bool :=
  existsb (String.eqb "dark") (class_tokens (rootClassName s)).

(** [needle] occurs in [hay]. *)
Definition occurs_in (needle hay : string) : Prop :=
  exists before after, hay = before ++ needle ++ after.

(** ** Checks on concrete inputs *)

Example parse_image_pattern :
  RegExp.parse "image.*"
  = [(RegExp.Lit "i"%char, false); (RegExp.Lit "m"%char, false);
     (RegExp.Lit "a"%char, false); (RegExp.Lit "g"%char, false);
     (RegExp.Lit "e"%char, false); (RegExp.Dot, true)].
Proof. reflexivity. Qed.

Example match_png : String_match "image/png" "image.*" = true.
Proof. reflexivity. Qed.

Example match_pdf : String_match "application/pdf" "image.*" = false.
Proof. reflexivity. Qed.

Example match_empty_type : String_match "" "image.*" = false.
Proof. reflexivity. Qed.

Example setStyle_slate : Color.setStyle "#e2e8f0" = Some 0xE2E8F0%Z.
Proof. reflexivity. Qed.

Example setStyle_white : Color.setStyle "white" = Some 0xFFFFFF%Z.
Proof. reflexivity. Qed.

Example setStyle_short : Color.setStyle "#fff" = Some 0xFFFFFF%Z.
Proof. reflexivity. Qed.

Example Box_material_array (t : option Texture) :
  match Box (mkObjectProps t false) with
  | Mesh m => List.map (option_map textured) match mesh_material m with
                                            | multi arr => arr
                                            | _ => []
                                            end
  | Group _ => []
  end = [Some false; Some false; Some false; Some false; Some true; Some false].
Proof. reflexivity. Qed.

Example Scene_initial :
  composed [] (scene_props (App (initialState false)))
  = [mkElement cBox (mkObjectProps None false)].
Proof. reflexivity. Qed.

Example useTexture_undecodable :
  useTexture [("blob:1", mkFile "setup.dmg" "application/x-apple-diskimage" false)]
    "blob:1" = None.
Proof. reflexivity. Qed.

Example useTexture_unknown : useTexture [] "blob:1" = None.
Proof. reflexivity. Qed.

Example initialWorld_effects :
  effects (initialWorld true) = [Mounted 0; Mounted 1].
Proof. reflexivity. Qed.

(** ** The presenters *)

Lemma ObjectType_eqb_spec (a b : ObjectType) : reflect (a = b) (ObjectType_eqb a b).
Proof. destruct a, b; constructor; congruence. Qed.

(** C6.  For every texture and theme, the [Box] gives the supplied texture to
    exactly one face of the cube, the one facing +z, and gives each of the
    other five faces a flat colour that depends on the theme alone: a light
    tone in light mode, and another tone in dark mode. *)
Theorem Box_one_textured_face (t : option Texture) (dark : bool) :
  let props := mkObjectProps t dark in
  filter (fun f => match Box_face props f with
                   | Some m => textured m
                   | None => false
                   end) box_faces = [pz]
  /\ (exists m, Box_face props pz = Some m /\ map m = Some t /\ bound_texture m = t)
  /\ Forall (fun f => exists m, Box_face props f = Some m /\ map m = None
                                /\ bound_texture m = None
                                /\ material_color m = flat_tone dark)
       [px; nx; py; ny; nz]
  /\ Color.light_tone (flat_tone false) = true
  /\ flat_tone true <> flat_tone false.
Proof.
  cbn zeta. split; [reflexivity|].
  split.
  - eexists. split; [reflexivity|]. split; reflexivity.
  - split.
    + repeat constructor; eexists; (split; [reflexivity|]);
        repeat split; destruct dark; reflexivity.
    + split; [reflexivity | discriminate].
Qed.

(** The [Cylinder] gives the texture to its lateral surface and a flat theme
    colour to both caps. *)
Lemma Cylinder_parts (t : option Texture) (dark : bool) :
  let props := mkObjectProps t dark in
  (exists m, Cylinder_part props lateral = Some m /\ map m = Some t /\ color m = None)
  /\ Forall (fun p => exists m, Cylinder_part props p = Some m /\ map m = None
                                /\ material_color m = flat_tone dark)
       [top_cap; bottom_cap].
Proof.
  cbn zeta. split.
  - eexists. repeat split.
  - repeat constructor; eexists; (split; [reflexivity|]); split;
      destruct dark; reflexivity.
Qed.

(** The [Mug] has one region: textured, over a theme-tinted base. *)
Lemma Mug_regions (t : option Texture) (dark : bool) :
  exists m, regions (Mug (mkObjectProps t dark)) = [m]
            /\ map m = Some t /\ material_color m = flat_tone dark.
Proof. eexists. split; [reflexivity|]. split; destruct dark; reflexivity. Qed.

(** What the [Shirt] gives to each of its sub-meshes. *)
Lemma Shirt_sub_meshes (t : option Texture) (dark : bool) :
  let props := mkObjectProps t dark in
  (exists front, Shirt_front props = [front]
     /\ used_materials (mesh_material front) = [mkMaterial material None (Some t)])
  /\ List.length (Shirt_others props) = 3
  /\ Forall (fun m => exists mat, used_materials (mesh_material m) = [mat]
                                  /\ map mat = None /\ bound_texture mat = None
                                  /\ material_color mat = shirt_tint dark)
       (Shirt_others props)
  /\ meshes (Shirt props) = (Shirt_front props ++ Shirt_others props)%list.
Proof.
  cbn zeta. split.
  - eexists. split; reflexivity.
  - split; [reflexivity|]. split; [|reflexivity].
    repeat constructor; eexists; (split; [reflexivity|]);
      repeat split; destruct dark; reflexivity.
Qed.

(** C10.  The material of the [Box] front face, of the [Cylinder] lateral
    surface and of the [Shirt] front panel is given no [color]: whatever the
    texture, present or absent, it keeps the library's default colour under
    both themes, while each region without a [map] changes colour with the
    theme. *)
Theorem textured_regions_ignore_theme (t : option Texture) (dark : bool) :
  (exists m m', Box_face (mkObjectProps t dark) pz = Some m
                /\ Box_face (mkObjectProps t (negb dark)) pz = Some m'
                /\ textured m = true /\ color m = None /\ m' = m
                /\ material_color m = Color.default)
  /\ (exists m m', Cylinder_part (mkObjectProps t dark) lateral = Some m
                   /\ Cylinder_part (mkObjectProps t (negb dark)) lateral = Some m'
                   /\ textured m = true /\ color m = None /\ m' = m
                   /\ material_color m = Color.default)
  /\ (exists f f', Shirt_front (mkObjectProps t dark) = [f]
                   /\ Shirt_front (mkObjectProps t (negb dark)) = [f']
                   /\ f' = f
                   /\ Forall (fun m => textured m = true /\ color m = None
                                       /\ material_color m = Color.default)
                        (used_materials (mesh_material f)))
  /\ Forall (fun c =>
       Forall2 (fun m m' => textured m' = textured m
                            /\ (textured m = true
                                \/ material_color m' <> material_color m))
         (regions (render c (mkObjectProps t dark)))
         (regions (render c (mkObjectProps t (negb dark)))))
       [cBox; cCylinder; cMug; cShirt].
Proof.
  split; [|split; [|split]].
  - do 2 eexists. repeat split; reflexivity.
  - do 2 eexists. repeat split; reflexivity.
  - do 2 eexists. split; [reflexivity|]. split; [reflexivity|].
    split; [reflexivity|]. repeat constructor.
  - repeat (apply Forall_cons || apply Forall_nil); destruct dark;
      repeat (apply Forall2_cons || apply Forall2_nil);
      (split; [reflexivity|]); try (left; reflexivity);
      right; vm_compute; discriminate.
Qed.

(** C9.  [ObjectType] has a fifth value, [sphere], which the selector does
    not offer; with it [Scene] composes no presenter at all, whatever the
    texture source and the theme. *)
Theorem Scene_sphere_empty (store : BlobStore) (url : option string) (dark : bool) :
  ~ In sphere select_options
  /\ presenter_of sphere = None
  /\ composed store (mkSceneProps url sphere dark) = []
  /\ List.length (composed store (mkSceneProps url sphere dark)) <> 1
  /\ (forall t, present (Scene_fragment t sphere dark) = []).
Proof.
  assert (H : composed store (mkSceneProps url sphere dark) = []).
  { unfold composed, Scene. cbn [sp_textureUrl sp_selectedObject sp_darkMode].
    destruct url as [u|]; [|reflexivity].
    destruct (truthy (Some u)); [|reflexivity].
    destruct (useTexture store u); reflexivity. }
  split.
  - cbn. intuition discriminate.
  - split; [reflexivity|]. split; [exact H|]. split; [|reflexivity].
    rewrite H. cbn. discriminate.
Qed.

(** [Scene] composes the presenter paired with the object kind, and no
    other. *)
Lemma Scene_presenters (t : option Texture) (o : ObjectType) (dark : bool) :
  List.map el_type (present (Scene_fragment t o dark))
  = match presenter_of o with Some c => [c] | None => [] end.
Proof. destruct o; reflexivity. Qed.

(** When the texture source is absent or loads, [Scene] renders. *)
Lemma Scene_loaded (store : BlobStore) (url : option string) (o : ObjectType)
    (dark : bool) :
  (forall u, url = Some u ->
             (exists uuid, u = "blob:" ++ uuid)
             /\ useTexture store u = Some (mkTexture u)) ->
  Scene store (mkSceneProps url o dark)
  = Some (Scene_fragment (option_map mkTexture url) o dark).
Proof.
  intros H. unfold Scene. cbn [sp_textureUrl sp_selectedObject sp_darkMode].
  destruct url as [u|]; [|reflexivity].
  destruct (H u eq_refl) as ((uuid & E) & Hl).
  rewrite Hl. subst u. reflexivity.
Qed.

(** Each presenter has exactly one texture-designated region, and it holds
    the texture the presenter was given. *)
Lemma render_textured_region (c : Component) (t : option Texture) (dark : bool) :
  exists m, filter textured (regions (render c (mkObjectProps t dark))) = [m]
            /\ map m = Some t
            /\ List.map bound_texture (regions (render c (mkObjectProps t dark)))
               = List.map (fun r => if textured r then t else None)
                   (regions (render c (mkObjectProps t dark))).
Proof. destruct c; eexists; repeat split; reflexivity. Qed.

(** ** What one event commits *)

Lemma blob_key_fresh (url : option string) (urls : list string) (uuid : string) :
  (forall u, url = Some u -> In u urls) ->
  ~ In ("blob:" ++ uuid) urls ->
  String.eqb (key_string url) ("blob:" ++ uuid) = false.
Proof.
  intros Hurl Hfresh. apply String.eqb_neq. destruct url as [u|]; cbn.
  - intros ->. apply Hfresh, Hurl. reflexivity.
  - discriminate.
Qed.

Ltac destruct_world w :=
  let s := fresh "s" in
  destruct w as [s ? ? ? ?]; destruct s as [[?|] ? ?]; cbn in *.

(** A URL other than the one just registered stands for what it stood for. *)
Lemma resolve_older (url u : string) (file : File) (store : BlobStore) :
  url <> u -> resolve u ((url, file) :: store) = resolve u store.
Proof.
  intros Hne. cbn [resolve]. apply String.eqb_neq in Hne. now rewrite Hne.
Qed.

Lemma resolve_latest (url : string) (file : File) (store : BlobStore) :
  resolve url ((url, file) :: store) = Some file.
Proof. cbn [resolve]. now rewrite String.eqb_refl. Qed.

(** In a consistent world [App]'s scene renders, for any new state with the
    same texture source. *)
Lemma App_renders (w : World) (s' : AppState) :
  consistent w -> textureUrl s' = textureUrl (app w) ->
  Scene (blobs w) (scene_props (App s'))
  = Some (Scene_fragment (option_map mkTexture (textureUrl s')) (selectedObject s')
            (darkMode s')).
Proof.
  intros Hc Hu. unfold App. cbn [scene_props]. apply Scene_loaded.
  intros u E. rewrite Hu in E. split.
  - exact (proj2 (@cons_url w Hc u E)).
  - exact (@cons_loaded w Hc u E).
Qed.

(** A theme toggle re-renders the mounted instances in place. *)
Lemma dispatch_toggle (w : World) (sid fid : nat) :
  consistent w -> shaped w sid fid ->
  dispatch ThemeToggle w
  = mkWorld (toggleDarkMode (app w)) (blobs w)
      (Some (mkSceneFiber sid (key_string (textureUrl (app w)))
               (slots fid (toggleDarkMode (app w)))))
      (next_id w) [Updated sid; Updated fid].
Proof.
  intros Hc (Hroot & _). pose proof (cons_kind Hc) as Hkind.
  unfold dispatch. rewrite Hroot. cbn [handle fst snd].
  destruct (AppState_eq_dec (app w) (toggleDarkMode (app w))) as [E|_].
  - exfalso. apply (f_equal darkMode) in E. cbn in E.
    destruct (darkMode (app w)); discriminate.
  - unfold reconcileScene.
    rewrite (@App_renders w (toggleDarkMode (app w)) Hc eq_refl).
    unfold commitScene. cbn [scene_key key App].
    change (textureUrl (toggleDarkMode (app w))) with (textureUrl (app w)).
    rewrite String.eqb_refl. clear Hc Hroot.
    destruct_world w;
      destruct Hkind as [<-|[<-|[<-|[<-|[]]]]]; reflexivity.
Qed.

(** Choosing another object kind keeps the [Scene] instance, unmounts the
    presenter that was there and mounts a new one. *)
Lemma dispatch_object (w : World) (sid fid : nat) (k : ObjectType) :
  consistent w -> shaped w sid fid ->
  In k select_options -> k <> selectedObject (app w) ->
  exists effs,
    dispatch (ObjectChange k) w
    = mkWorld (handleObjectChange k (app w)) (blobs w)
        (Some (mkSceneFiber sid (key_string (textureUrl (app w)))
                 (slots (next_id w) (handleObjectChange k (app w)))))
        (S (next_id w)) effs
    /\ In (Unmounted fid) effs /\ In (Mounted (next_id w)) effs
    /\ (forall id, In (Updated id) effs -> id = sid)
    /\ In (Updated sid) effs
    /\ (forall id, In (Unmounted id) effs -> id = fid).
Proof.
  intros Hc (Hroot & _) Hk Hne. pose proof (cons_kind Hc) as Hkind.
  unfold dispatch. rewrite Hroot. cbn [handle fst snd].
  destruct (AppState_eq_dec (app w) (handleObjectChange k (app w))) as [E|_].
  - exfalso. apply Hne. apply (f_equal selectedObject) in E. cbn in E. congruence.
  - unfold reconcileScene.
    rewrite (@App_renders w (handleObjectChange k (app w)) Hc eq_refl).
    unfold commitScene. cbn [scene_key key App].
    change (textureUrl (handleObjectChange k (app w))) with (textureUrl (app w)).
    rewrite String.eqb_refl. clear Hc Hroot.
    destruct_world w;
      destruct Hkind as [<-|[<-|[<-|[<-|[]]]]];
      destruct Hk as [<-|[<-|[<-|[<-|[]]]]];
      try (exfalso; apply Hne; reflexivity);
      (eexists; split; [reflexivity|]; cbn;
       split; [tauto|]; split; [tauto|];
       split; [intros id Hin; intuition congruence|];
       split; [tauto|]; intros id Hin; intuition congruence).
Qed.

(** A file the handler turns down leaves everything as it was. *)
Lemma dispatch_ignored (w : World) (event : FileChangeEvent) (uuid : string) :
  match first_file event with
  | Some file => String_match (file_type file) "image.*" = false
  | None => True
  end ->
  dispatch (FileChange event uuid) w
  = mkWorld (app w) (blobs w) (root w) (next_id w) [].
Proof.
  intros H. unfold dispatch. destruct (root w) as [r|]; [|reflexivity].
  cbn [handle]. unfold handleFileChange.
  destruct (first_file event) as [file|].
  - rewrite H. destruct (AppState_eq_dec (app w) (app w)); [reflexivity|congruence].
  - destruct (AppState_eq_dec (app w) (app w)); [reflexivity|congruence].
Qed.

(** A file the handler takes, and whose bytes decode, replaces the texture
    source and, the key being new, remounts the scene: both old instances
    go, two new ones come. *)
Lemma dispatch_accepted (w : World) (sid fid : nat)
    (event : FileChangeEvent) (uuid : string) (file : File) :
  consistent w -> shaped w sid fid ->
  ~ In ("blob:" ++ uuid) (blob_urls (blobs w)) ->
  first_file event = Some file ->
  String_match (file_type file) "image.*" = true ->
  file_decodes file = true ->
  dispatch (FileChange event uuid) w
  = mkWorld (setTextureUrl ("blob:" ++ uuid) (app w))
      (("blob:" ++ uuid, file) :: blobs w)
      (Some (mkSceneFiber (next_id w) ("blob:" ++ uuid)
               (slots (S (next_id w)) (setTextureUrl ("blob:" ++ uuid) (app w)))))
      (S (S (next_id w)))
      [Unmounted sid; Unmounted fid; Mounted (next_id w); Mounted (S (next_id w))].
Proof.
  intros Hc (Hroot & _) Hfresh Hfile Himg Hdec.
  pose proof (cons_kind Hc) as Hkind.
  assert (Hurl : forall u, textureUrl (app w) = Some u -> In u (blob_urls (blobs w))).
  { intros u E. exact (proj1 (@cons_url w Hc u E)). }
  unfold dispatch. rewrite Hroot.
  cbn [handle]. unfold handleFileChange. rewrite Hfile, Himg.
  unfold createObjectURL.
  destruct (AppState_eq_dec (app w) (setTextureUrl ("blob:" ++ uuid) (app w)))
    as [E|_].
  - exfalso. apply Hfresh, Hurl. rewrite E at 1. reflexivity.
  - unfold reconcileScene.
    rewrite (@Scene_loaded _ (Some ("blob:" ++ uuid))
               (selectedObject (app w)) (darkMode (app w))).
    2:{ intros u [= <-]. split; [now exists uuid|]. unfold useTexture.
        rewrite resolve_latest, Hdec. reflexivity. }
    unfold commitScene, unmountScene. cbn [scene_key scene_id scene_children key App].
    change (textureUrl (setTextureUrl ("blob:" ++ uuid) (app w)))
      with (Some ("blob:" ++ uuid)).
    cbn [key_string]. rewrite (blob_key_fresh _ _ Hurl Hfresh).
    clear Hc Hroot Hurl Hfresh.
    destruct_world w;
      destruct Hkind as [<-|[<-|[<-|[<-|[]]]]]; reflexivity.
Qed.

(** A file the handler takes, but whose bytes do not decode: the texture
    source is replaced all the same, the render throws and the tree is
    unmounted. *)
Lemma dispatch_failed (w : World) (sid fid : nat)
    (event : FileChangeEvent) (uuid : string) (file : File) :
  consistent w -> shaped w sid fid ->
  ~ In ("blob:" ++ uuid) (blob_urls (blobs w)) ->
  first_file event = Some file ->
  String_match (file_type file) "image.*" = true ->
  file_decodes file = false ->
  dispatch (FileChange event uuid) w
  = mkWorld (setTextureUrl ("blob:" ++ uuid) (app w))
      (("blob:" ++ uuid, file) :: blobs w) None (next_id w)
      [Unmounted sid; Unmounted fid].
Proof.
  intros Hc (Hroot & _) Hfresh Hfile Himg Hdec.
  pose proof (cons_kind Hc) as Hkind.
  assert (Hurl : forall u, textureUrl (app w) = Some u -> In u (blob_urls (blobs w))).
  { intros u E. exact (proj1 (@cons_url w Hc u E)). }
  unfold dispatch. rewrite Hroot.
  cbn [handle]. unfold handleFileChange. rewrite Hfile, Himg.
  unfold createObjectURL.
  destruct (AppState_eq_dec (app w) (setTextureUrl ("blob:" ++ uuid) (app w)))
    as [E|_].
  - exfalso. apply Hfresh, Hurl. rewrite E at 1. reflexivity.
  - unfold reconcileScene.
    assert (Hthrow : Scene (("blob:" ++ uuid, file) :: blobs w)
                       (scene_props (App (setTextureUrl ("blob:" ++ uuid) (app w))))
                     = None).
    { unfold Scene, useTexture.
      cbn [scene_props App sp_textureUrl textureUrl setTextureUrl].
      rewrite resolve_latest, Hdec. reflexivity. }
    rewrite Hthrow. unfold unmountScene. cbn [scene_id scene_children].
    clear Hc Hroot Hurl Hfresh Hthrow.
    destruct_world w;
      destruct Hkind as [<-|[<-|[<-|[<-|[]]]]]; reflexivity.
Qed.

(** ** The invariant *)

Lemma consistent_initial (prefersDark : bool) : consistent (initialWorld prefersDark).
Proof.
  split.
  - exists 0, 1. repeat split; cbn; first [reflexivity | lia].
  - cbn. discriminate.
  - cbn. discriminate.
  - cbn. tauto.
Qed.

Lemma consistent_dispatch (w : World) (e : Event) :
  consistent w -> enabled e w -> root (dispatch e w) <> None ->
  consistent (dispatch e w).
Proof.
  intros Hc He Hrun. pose proof Hc as [(sid & fid & Hs) Hurl Hload Hkind].
  pose proof Hs as (Hroot & Hne & Hsid & Hfid).
  destruct e as [event uuid|k|]; cbn [enabled] in He.
  - destruct (first_file event) as [file|] eqn:Hfile;
      [destruct (String_match (file_type file) "image.*") eqn:Himg|].
    + destruct (file_decodes file) eqn:Hdec.
      * rewrite (@dispatch_accepted w sid fid event uuid file Hc Hs He Hfile Himg Hdec).
        split; cbn.
        -- exists (next_id w), (S (next_id w)).
           repeat split; cbn; first [reflexivity | lia].
        -- intros u [= <-]. split; [now left | now exists uuid].
        -- intros u [= <-]. unfold useTexture. rewrite resolve_latest, Hdec.
           reflexivity.
        -- exact Hkind.
      * exfalso. apply Hrun.
        rewrite (@dispatch_failed w sid fid event uuid file Hc Hs He Hfile Himg Hdec).
        reflexivity.
    + rewrite dispatch_ignored by (rewrite Hfile; exact Himg).
      split; cbn; [exists sid, fid; exact Hs | exact Hurl | exact Hload | exact Hkind].
    + rewrite dispatch_ignored by (rewrite Hfile; exact I).
      split; cbn; [exists sid, fid; exact Hs | exact Hurl | exact Hload | exact Hkind].
  - destruct He as [Hk Hd].
    destruct (@dispatch_object w sid fid k Hc Hs Hk Hd) as (effs & -> & _).
    split; cbn.
    + exists sid, (next_id w). repeat split; cbn; first [reflexivity | lia].
    + exact Hurl.
    + exact Hload.
    + exact Hk.
  - rewrite (@dispatch_toggle w sid fid Hc Hs). split; cbn.
    + exists sid, fid. repeat split; cbn; first [reflexivity | assumption].
    + exact Hurl.
    + exact Hload.
    + exact Hkind.
Qed.

Lemma reachable_consistent (w : World) : reachable w -> consistent w.
Proof.
  induction 1 as [b|w e _ IH He Hrun].
  - apply consistent_initial.
  - now apply consistent_dispatch.
Qed.

(** Events other than a file change never make the render throw. *)
Lemma dispatch_runs (w : World) (e : Event) :
  consistent w -> enabled e w ->
  match e with FileChange _ _ => False | _ => True end ->
  root (dispatch e w) <> None.
Proof.
  intros Hc He Hev. destruct (cons_shape Hc) as (sid & fid & Hs).
  destruct e as [event uuid|k|]; [destruct Hev| |].
  - destruct He as [Hk Hd].
    destruct (@dispatch_object w sid fid k Hc Hs Hk Hd) as (effs & -> & _).
    discriminate.
  - rewrite (@dispatch_toggle w sid fid Hc Hs). discriminate.
Qed.

(** Once the tree is unmounted it stays so, and nothing else moves. *)
Lemma dispatch_dead (w : World) (e : Event) :
  root w = None ->
  dispatch e w = mkWorld (app w) (blobs w) None (next_id w) [].
Proof. intros H. unfold dispatch. now rewrite H. Qed.

Lemma later_dead (w w' : World) :
  root w = None -> later w w' ->
  root w' = None /\ app w' = app w /\ blobs w' = blobs w.
Proof.
  intros Hd. induction 1 as [|w' e _ (IH1 & IH2 & IH3) _]; [now repeat split|].
  rewrite (@dispatch_dead w' e IH1). cbn. now repeat split.
Qed.

(** A world is settled when the application runs consistently or its tree
    is unmounted. *)
Lemma settled_dispatch (w : World) (e : Event) :
  consistent w \/ root w = None -> enabled e w ->
  consistent (dispatch e w) \/ root (dispatch e w) = None.
Proof.
  intros [Hc|Hd] He.
  - destruct (root (dispatch e w)) eqn:E; [left|now right].
    apply consistent_dispatch; [exact Hc | exact He | congruence].
  - right. now rewrite (@dispatch_dead w e Hd).
Qed.

Lemma later_settled (w w' : World) :
  consistent w \/ root w = None -> later w w' ->
  consistent w' \/ root w' = None.
Proof.
  intros Hs. induction 1 as [|w' e _ IH He]; [exact Hs|].
  now apply settled_dispatch.
Qed.

(** In a consistent world one presenter is mounted: the one paired with the
    object kind, holding the texture of the current source. *)
Lemma mounted_consistent (w : World) (sid fid : nat) :
  consistent w -> shaped w sid fid ->
  exists c,
    presenter_of (selectedObject (app w)) = Some c
    /\ mounted w = [mkFiber fid c (mkObjectProps
                                     (option_map mkTexture (textureUrl (app w)))
                                     (darkMode (app w)))]
    /\ mounted_ids w = [sid; fid].
Proof.
  intros Hc (Hroot & _). pose proof (cons_kind Hc) as Hkind.
  unfold mounted_ids, mounted. rewrite Hroot. clear Hc Hroot.
  destruct w as [[url o dark] store r next effs]; cbn in *.
  destruct Hkind as [<-|[<-|[<-|[<-|[]]]]]; eexists; repeat split.
Qed.

(** The textures the mounted scene holds: that of the current source. *)
Lemma scene_textures_consistent (w : World) :
  consistent w ->
  scene_textures w
  = match textureUrl (app w) with Some u => [mkTexture u] | None => [] end.
Proof.
  intros Hc. destruct (cons_shape Hc) as (sid & fid & Hs).
  destruct (@mounted_consistent w sid fid Hc Hs) as (c & _ & Hm & _).
  unfold scene_textures. rewrite Hm.
  destruct (textureUrl (app w)), c; reflexivity.
Qed.

Lemma scene_textures_dead (w : World) : root w = None -> scene_textures w = [].
Proof. intros H. unfold scene_textures, mounted. now rewrite H. Qed.
(** ** Selecting an object kind *)

(** C1.  In every reachable state at most one presenter is mounted; and when
    the selector reports a change to one of its four kinds, the commit leaves
    exactly one presenter mounted, newly mounted and the one paired with that
    kind, and unmounts the presenter that was mounted before. *)
Theorem select_mounts_one_presenter (w : World) :
  reachable w ->
  List.length (mounted w) <= 1
  /\ forall k, enabled (ObjectChange k) w ->
       let w' := dispatch (ObjectChange k) w in
       (exists f, mounted w' = [f]
                  /\ presenter_of k = Some (fiber_type f)
                  /\ In (Mounted (fiber_id f)) (effects w')
                  /\ ~ In (fiber_id f) (mounted_ids w))
       /\ Forall (fun g => In (Unmounted (fiber_id g)) (effects w')
                           /\ ~ In (fiber_id g) (mounted_ids w'))
            (mounted w).
Proof.
  intros Hr. pose proof (reachable_consistent Hr) as Hc.
  destruct (cons_shape Hc) as (sid & fid & Hs).
  destruct (@mounted_consistent w sid fid Hc Hs) as (c & Hc1 & Hm & Hids).
  split; [rewrite Hm; cbn; lia|].
  intros k He w'.
  assert (Hc' : consistent w').
  { apply consistent_dispatch; [assumption | assumption |].
    now apply dispatch_runs. }
  destruct He as [Hk Hd]. pose proof Hs as (Hroot & Hne & Hsid & Hfid).
  destruct (@dispatch_object w sid fid k Hc Hs Hk Hd)
    as (effs & Hw' & Hun & Hmo & _).
  assert (Hs' : shaped w' sid (next_id w)).
  { unfold w'. rewrite Hw'. repeat split; cbn; first [reflexivity | lia]. }
  destruct (@mounted_consistent w' sid (next_id w) Hc' Hs') as (c' & Hc1' & Hm' & Hids').
  split.
  - eexists. split; [exact Hm'|]. cbn [fiber_type fiber_id].
    split; [| split].
    + unfold w' in Hc1'. rewrite Hw' in Hc1'. exact Hc1'.
    + unfold w'. rewrite Hw'. exact Hmo.
    + rewrite Hids. cbn. lia.
  - rewrite Hm. constructor; [|constructor]. cbn [fiber_id]. split.
    + unfold w'. rewrite Hw'. exact Hun.
    + rewrite Hids'. cbn. lia.
Qed.

(** From the initial light-theme world, the selector changes to [mug]. *)
Lemma select_mounts_one_presenter_witness :
  let w := initialWorld false in
  let w' := dispatch (ObjectChange mug) w in
  reachable w
  /\ enabled (ObjectChange mug) w
  /\ List.length (mounted w) <= 1
  /\ (exists f, mounted w' = [f]
                /\ presenter_of mug = Some (fiber_type f)
                /\ In (Mounted (fiber_id f)) (effects w')
                /\ ~ In (fiber_id f) (mounted_ids w))
  /\ Forall (fun g => In (Unmounted (fiber_id g)) (effects w')
                      /\ ~ In (fiber_id g) (mounted_ids w'))
       (mounted w).
Proof.
  intros w w'.
  assert (Hr : reachable w) by apply reachable_init.
  assert (He : enabled (ObjectChange mug) w) by (split; [cbn; tauto | discriminate]).
  destruct (@select_mounts_one_presenter w Hr) as [Hle Hsel].
  split; [exact Hr|]. split; [exact He|]. split; [exact Hle|].
  exact (Hsel mug He).
Defined.

(** C8.  The object kind starts as [box]; in every reachable state it is one
    of the four kinds the selector offers, and from every reachable state
    each of the four can be reached. *)
Theorem object_kind_range (w : World) :
  reachable w ->
  select_options = [box; cylinder; mug; shirt]
  /\ (forall prefersDark, selectedObject (initialState prefersDark) = box
                          /\ selectedObject (app (initialWorld prefersDark)) = box)
  /\ In (selectedObject (app w)) select_options
  /\ Forall (fun o => exists w', later w w' /\ reachable w'
                                 /\ selectedObject (app w') = o)
       select_options.
Proof.
  intros Hr. pose proof (reachable_consistent Hr) as Hc.
  split; [reflexivity|]. split; [intros b; split; reflexivity|].
  split; [exact (cons_kind Hc)|].
  apply Forall_forall. intros o Ho.
  destruct (ObjectType_eq_dec o (selectedObject (app w))) as [->|Hd].
  - exists w. repeat split; [constructor | exact Hr].
  - exists (dispatch (ObjectChange o) w).
    assert (He : enabled (ObjectChange o) w) by (split; assumption).
    split; [|split].
    + apply later_step; [constructor | exact He].
    + apply reachable_step; [assumption | assumption |].
      now apply dispatch_runs.
    + destruct (cons_shape Hc) as (sid & fid & Hs).
      destruct (@dispatch_object w sid fid o Hc Hs Ho Hd) as (effs & -> & _).
      reflexivity.
Qed.

(** After one theme toggle from the initial dark-theme world. *)
Lemma object_kind_range_witness :
  let w := dispatch ThemeToggle (initialWorld true) in
  reachable w
  /\ In (selectedObject (app w)) select_options
  /\ Forall (fun o => exists w', later w w' /\ reachable w'
                                 /\ selectedObject (app w') = o)
       select_options.
Proof.
  intros w.
  assert (Hr : reachable w).
  { apply reachable_step; [apply reachable_init | exact I | discriminate]. }
  destruct (@object_kind_range w Hr) as (_ & _ & Hin & Hall).
  split; [exact Hr|]. split; [exact Hin | exact Hall].
Defined.

(** ** Changing the texture source *)

Lemma handle_cases (e : Event) (store : BlobStore) (s : AppState) :
  (fst (handle e (store, s)) = store
   /\ textureUrl (snd (handle e (store, s))) = textureUrl s)
  \/ exists event uuid file,
       e = FileChange event uuid
       /\ first_file event = Some file
       /\ String_match (file_type file) "image.*" = true
       /\ handle e (store, s)
          = (("blob:" ++ uuid, file) :: store, setTextureUrl ("blob:" ++ uuid) s).
Proof.
  destruct e as [event uuid|k|]; cbn [handle fst snd].
  - unfold handleFileChange. destruct (first_file event) as [file|] eqn:Hfile.
    + destruct (String_match (file_type file) "image.*") eqn:Himg.
      * right. exists event, uuid, file. repeat split; assumption || reflexivity.
      * left. now split.
    + left. now split.
  - left. now split.
  - left. now split.
Qed.

(** While the tree is mounted, the state and the store after an event are
    those the handler leaves. *)
Lemma dispatch_handle (e : Event) (w : World) :
  root w <> None ->
  (blobs (dispatch e w), app (dispatch e w)) = handle e (blobs w, app w).
Proof.
  intros Hrun. unfold dispatch. destruct (root w) as [r|]; [|congruence].
  destruct (handle e (blobs w, app w)) as [store' s'].
  destruct (AppState_eq_dec (app w) s') as [->|_]; [reflexivity|].
  destruct (reconcileScene _ _ _ _) as [[[? ?] ?]|]; reflexivity.
Qed.

Lemma dispatch_blobs (e : Event) (w : World) :
  root w <> None -> blobs (dispatch e w) = fst (handle e (blobs w, app w)).
Proof. intros H. now rewrite <- (@dispatch_handle e w H). Qed.

Lemma dispatch_app (e : Event) (w : World) :
  root w <> None -> app (dispatch e w) = snd (handle e (blobs w, app w)).
Proof. intros H. now rewrite <- (@dispatch_handle e w H). Qed.

(** Only a file-change event can change the texture source, and then to a
    new blob URL. *)
Lemma textureUrl_changes (w : World) (e : Event) :
  textureUrl (app (dispatch e w)) <> textureUrl (app w) ->
  exists event uuid file,
    e = FileChange event uuid /\ first_file event = Some file
    /\ String_match (file_type file) "image.*" = true.
Proof.
  intros Hne. destruct (root w) as [r|] eqn:Hroot.
  - assert (Hrun : root w <> None) by congruence.
    rewrite (@dispatch_app e w Hrun) in Hne.
    destruct (handle_cases e (blobs w) (app w))
      as [(_ & Hu)|(event & uuid & file & -> & Hfile & Himg & _)].
    + now destruct Hne.
    + now exists event, uuid, file.
  - exfalso. apply Hne. now rewrite (@dispatch_dead w e Hroot).
Qed.

(** A superseded URL stays superseded. *)
Lemma superseded_dispatch (u : string) (w : World) (e : Event) :
  enabled e w -> superseded u w -> superseded u (dispatch e w).
Proof.
  intros He [Hin Hcur]. destruct (root w) as [r|] eqn:Hroot.
  - assert (Hrun : root w <> None) by congruence.
    unfold superseded. rewrite (@dispatch_app e w Hrun), (@dispatch_blobs e w Hrun).
    destruct (handle_cases e (blobs w) (app w))
      as [(Hb & Hu)|(event & uuid & file & -> & _ & _ & Hnew)].
    + rewrite Hb, Hu. now split.
    + rewrite Hnew. cbn [fst snd blob_urls List.map textureUrl setTextureUrl].
      cbn [enabled] in He. split.
      * right. exact Hin.
      * intros [= E]. apply He. subst u. exact Hin.
  - rewrite (@dispatch_dead w e Hroot). now split.
Qed.

Lemma superseded_later (u : string) (w w' : World) :
  superseded u w -> later w w' -> superseded u w'.
Proof.
  intros Hs. induction 1 as [|w' e Hl IH He]; [exact Hs|].
  now apply superseded_dispatch.
Qed.

(** The mounted scene holds no texture of a superseded URL. *)
Lemma superseded_not_shown (u : string) (w : World) :
  consistent w \/ root w = None -> superseded u w ->
  ~ In (mkTexture u) (scene_textures w).
Proof.
  intros [Hc|Hd] [_ Hcur].
  - rewrite (scene_textures_consistent Hc).
    destruct (textureUrl (app w)) as [v|]; cbn; [|tauto].
    intros [[= E]|[]]. apply Hcur. now rewrite E.
  - rewrite (@scene_textures_dead w Hd). cbn. tauto.
Qed.

Lemma shows_consistent (w : World) :
  consistent w -> shows w (option_map mkTexture (textureUrl (app w))).
Proof.
  intros Hc. destruct (cons_shape Hc) as (sid & fid & Hs).
  destruct (@mounted_consistent w sid fid Hc Hs) as (c & _ & Hm & _).
  eexists. split; [exact Hm|].
  unfold shown, textured_regions. cbn [fiber_type fiber_props].
  destruct c; (split; [discriminate | repeat constructor]).
Qed.

Lemma shows_dead (w : World) (t : option Texture) : root w = None -> ~ shows w t.
Proof.
  intros Hd (f & Hm & _). unfold mounted in Hm. rewrite Hd in Hm. discriminate Hm.
Qed.

(** C2, as the code has it.  An event that changes the texture source is a
    file change, and the new source is a blob URL that stands for the file
    picked.  When the file's bytes decode, the commit is a full remount: the
    [Scene] instance and its presenter are unmounted, not updated, new
    instances are mounted, and the one presenter then mounted holds the
    texture loaded from the new URL on its texture-designated region.  When
    they do not decode, the render throws and the tree is unmounted for
    good.  Either way no texture the scene held before is ever held by the
    mounted scene again. *)
Theorem texture_change_remounts (w : World) (e : Event) :
  reachable w -> enabled e w ->
  textureUrl (app (dispatch e w)) <> textureUrl (app w) ->
  exists event uuid file url,
    e = FileChange event uuid
    /\ first_file event = Some file
    /\ textureUrl (app (dispatch e w)) = Some url
    /\ resolve url (blobs (dispatch e w)) = Some file
    /\ never_again (scene_textures w) (dispatch e w)
    /\ if file_decodes file
       then remounted w (dispatch e w)
            /\ useTexture (blobs (dispatch e w)) url = Some (mkTexture url)
            /\ shows (dispatch e w) (Some (mkTexture url))
            /\ scene_textures (dispatch e w) = [mkTexture url]
       else root (dispatch e w) = None
            /\ effects (dispatch e w) = List.map Unmounted (mounted_ids w)
            /\ forall w', later (dispatch e w) w' -> mounted w' = [].
Proof.
  intros Hr He Hne. pose proof (reachable_consistent Hr) as Hc.
  destruct (textureUrl_changes _ _ Hne) as (event & uuid & file & -> & Hfile & Himg).
  destruct (cons_shape Hc) as (sid & fid & Hs).
  destruct (@mounted_consistent w sid fid Hc Hs) as (c & _ & _ & Hids).
  cbn [enabled] in He.
  set (w' := dispatch (FileChange event uuid) w) in *.
  assert (Hw' : app w' = setTextureUrl ("blob:" ++ uuid) (app w)
                /\ blobs w' = ("blob:" ++ uuid, file) :: blobs w
                /\ (consistent w' \/ root w' = None)).
  { unfold w'. destruct (file_decodes file) eqn:Hdec.
    - rewrite (@dispatch_accepted w sid fid event uuid file Hc Hs He Hfile Himg Hdec).
      split; [reflexivity|]. split; [reflexivity|]. left.
      rewrite <- (@dispatch_accepted w sid fid event uuid file Hc Hs He Hfile Himg Hdec).
      apply consistent_dispatch; [exact Hc | exact He |].
      rewrite (@dispatch_accepted w sid fid event uuid file Hc Hs He Hfile Himg Hdec).
      discriminate.
    - rewrite (@dispatch_failed w sid fid event uuid file Hc Hs He Hfile Himg Hdec).
      split; [reflexivity|]. split; [reflexivity|]. now right. }
  destruct Hw' as (Happ & Hblobs & Hset).
  exists event, uuid, file, ("blob:" ++ uuid).
  split; [reflexivity|]. split; [exact Hfile|].
  split; [rewrite Happ; reflexivity|].
  split; [rewrite Hblobs; apply resolve_latest|].
  split.
  - intros w'' Hl. apply Forall_forall. intros t Ht.
    rewrite (scene_textures_consistent Hc) in Ht.
    destruct (textureUrl (app w)) as [u|] eqn:Hu; [|destruct Ht].
    destruct Ht as [<-|[]].
    apply superseded_not_shown; [exact (later_settled Hset Hl)|].
    apply (@superseded_later u w' w''); [|exact Hl].
    split.
    + rewrite Hblobs. cbn. right. exact (proj1 (@cons_url w Hc u Hu)).
    + rewrite Happ. cbn. intros [= E]. apply He. subst u.
      exact (proj1 (@cons_url w Hc _ Hu)).
  - destruct (file_decodes file) eqn:Hdec.
    + pose proof (@dispatch_accepted w sid fid event uuid file Hc Hs He Hfile Himg Hdec)
        as Hd.
      fold w' in Hd.
      assert (Hc' : consistent w').
      { destruct Hset as [H|H]; [exact H|]. rewrite Hd in H. discriminate H. }
      assert (Hs' : shaped w' (next_id w) (S (next_id w))).
      { rewrite Hd. repeat split; cbn; first [reflexivity | lia]. }
      destruct (@mounted_consistent _ _ _ Hc' Hs') as (c' & _ & _ & Hids').
      destruct Hs as (_ & Hdiff & Hsid & Hfid).
      split; [|split; [|split]].
      * split; rewrite ?Hids, ?Hids'.
        -- rewrite Hd. cbn [effects].
           repeat constructor; cbn; first [tauto | intuition (discriminate || lia)].
        -- rewrite Hd. cbn [effects].
           repeat constructor; cbn; first [tauto | intuition (discriminate || lia)].
      * rewrite Hblobs. unfold useTexture. rewrite resolve_latest, Hdec. reflexivity.
      * pose proof (shows_consistent Hc') as H. rewrite Happ in H. exact H.
      * rewrite (scene_textures_consistent Hc'), Happ. reflexivity.
    + pose proof (@dispatch_failed w sid fid event uuid file Hc Hs He Hfile Himg Hdec)
        as Hd.
      fold w' in Hd.
      assert (Hdead : root w' = None) by (rewrite Hd; reflexivity).
      split; [exact Hdead|]. split.
      * rewrite Hd, Hids. reflexivity.
      * intros w'' Hl. destruct (later_dead Hdead Hl) as (H & _).
        unfold mounted. now rewrite H.
Qed.

(** Object kind [box], two image uploads in a row. *)
Lemma texture_change_remounts_witness :
  let a := mkFile "a.png" "image/png" true in
  let b := mkFile "b.jpg" "image/jpeg" true in
  let w := dispatch (FileChange (mkFileChangeEvent (Some [a])) "1")
             (initialWorld false) in
  let e := FileChange (mkFileChangeEvent (Some [b])) "2" in
  let w' := dispatch e w in
  reachable w
  /\ enabled e w
  /\ textureUrl (app w') <> textureUrl (app w)
  /\ selectedObject (app w) = box
  /\ scene_textures w = [mkTexture "blob:1"]
  /\ resolve "blob:2" (blobs w') = Some b
  /\ scene_textures w' = [mkTexture "blob:2"]
  /\ exists event uuid file url,
       e = FileChange event uuid
       /\ first_file event = Some file
       /\ textureUrl (app w') = Some url
       /\ resolve url (blobs w') = Some file
       /\ never_again (scene_textures w) w'
       /\ if file_decodes file
          then remounted w w'
               /\ useTexture (blobs w') url = Some (mkTexture url)
               /\ shows w' (Some (mkTexture url))
               /\ scene_textures w' = [mkTexture url]
          else root w' = None
               /\ effects w' = List.map Unmounted (mounted_ids w)
               /\ forall w'', later w' w'' -> mounted w'' = [].
Proof.
  intros a b w e w'.
  assert (Hr : reachable w).
  { apply reachable_step; [apply reachable_init | cbn; tauto | discriminate]. }
  assert (He : enabled e w).
  { cbn. intros [H|[]]. discriminate H. }
  assert (Hne : textureUrl (app w') <> textureUrl (app w)) by (cbn; discriminate).
  split; [exact Hr|]. split; [exact He|]. split; [exact Hne|].
  split; [reflexivity|]. split; [reflexivity|].
  split; [reflexivity|]. split; [reflexivity|].
  exact (@texture_change_remounts w e Hr He Hne).
Defined.

(** C2, as claimed, fails.  Object kind [box], an image shown, and a second
    upload of a file that passes the handler's test but whose bytes do not
    decode: the texture source changes, yet no presenter is mounted
    afterwards, the scene shows no texture whatever, and the tree is gone. *)
Lemma texture_change_can_unmount :
  let a := mkFile "a.png" "image/png" true in
  let b := mkFile "b.png" "image/png" false in
  let w := dispatch (FileChange (mkFileChangeEvent (Some [a])) "1")
             (initialWorld false) in
  let e := FileChange (mkFileChangeEvent (Some [b])) "2" in
  let w' := dispatch e w in
  reachable w
  /\ enabled e w
  /\ selectedObject (app w) = box
  /\ mounted_ids w = [2; 3]
  /\ textureUrl (app w) = Some "blob:1"
  /\ textureUrl (app w') = Some "blob:2"
  /\ resolve "blob:2" (blobs w') = Some b
  /\ mounted w' = []
  /\ root w' = None
  /\ effects w' = [Unmounted 2; Unmounted 3]
  /\ scene_textures w' = []
  /\ ~ (exists url, shows w' (Some (mkTexture url))).
Proof.
  intros a b w e w'.
  split.
  { apply reachable_step; [apply reachable_init | cbn; tauto | discriminate]. }
  split.
  { cbn. intros [H|[]]. discriminate H. }
  repeat (split; [reflexivity|]).
  intros (url & H). apply (@shows_dead w' (Some (mkTexture url))); [reflexivity | exact H].
Qed.
(** ** No texture source *)

(** Every kind the selector offers can be shown without a texture source,
    under either theme. *)
Lemma reachable_untextured (o : ObjectType) (dark : bool) :
  In o select_options ->
  exists w, reachable w /\ app w = mkAppState None o dark.
Proof.
  intros Ho. destruct (ObjectType_eq_dec o box) as [->|Hd].
  - exists (initialWorld dark). split; [constructor | reflexivity].
  - exists (dispatch (ObjectChange o) (initialWorld dark)). split.
    + apply reachable_step; [constructor | split; [exact Ho | exact Hd] |].
      apply dispatch_runs;
        [apply consistent_initial | split; [exact Ho | exact Hd] | exact I].
    + destruct Ho as [<-|[<-|[<-|[<-|[]]]]]; try reflexivity.
      exfalso. now apply Hd.
Qed.

(** C4.  With the texture source absent, the mounted presenter holds no
    texture on its texture-designated region, nor anywhere else; so it is
    for each presenter [Scene] composes, for every object kind and both
    themes. *)
Theorem no_texture_without_source (w : World) :
  reachable w -> textureUrl (app w) = None ->
  shows w None
  /\ scene_textures w = []
  /\ forall (store : BlobStore) (o : ObjectType) (dark : bool),
       Scene store (mkSceneProps None o dark) <> None
       /\ Forall (fun e =>
                    textured_regions (render (el_type e) (el_props e)) <> []
                    /\ Forall (fun m => bound_texture m = None)
                         (regions (render (el_type e) (el_props e))))
            (composed store (mkSceneProps None o dark)).
Proof.
  intros Hr Hnone. pose proof (reachable_consistent Hr) as Hc.
  split; [|split].
  - pose proof (shows_consistent Hc) as H. rewrite Hnone in H. exact H.
  - rewrite (scene_textures_consistent Hc), Hnone. reflexivity.
  - intros store o dark. split; [discriminate|].
    destruct o; cbn; repeat constructor; discriminate.
Qed.

(** The dark-theme world after a change to [cylinder], nothing uploaded. *)
Lemma no_texture_without_source_witness :
  let w := dispatch (ObjectChange cylinder) (initialWorld true) in
  reachable w
  /\ textureUrl (app w) = None
  /\ shows w None
  /\ scene_textures w = [].
Proof.
  intros w.
  assert (Hr : reachable w).
  { apply reachable_step;
      [apply reachable_init | split; [cbn; tauto | discriminate] | discriminate]. }
  assert (Hn : textureUrl (app w) = None) by reflexivity.
  destruct (@no_texture_without_source w Hr Hn) as (H1 & H2 & _).
  split; [exact Hr|]. split; [exact Hn|]. split; [exact H1 | exact H2].
Defined.

(** ** Toggling the theme *)



(** ** The shirt *)

(** C7.  The [Shirt] gives the supplied texture to the front panel sub-mesh
    alone and gives every other sub-mesh a flat tint, a dark tone in dark
    mode and a light tone in light mode.  Starting with [box], the light
    theme and no upload, a change to [shirt] mounts the [Shirt], its front
    panel without an image and its other sub-meshes in the light-mode tint. *)
Theorem Shirt_front_panel_only (t : option Texture) (dark : bool) :
  ((exists front, Shirt_front (mkObjectProps t dark) = [front]
      /\ List.map bound_texture (used_materials (mesh_material front)) = [t])
   /\ meshes (Shirt (mkObjectProps t dark))
      = (Shirt_front (mkObjectProps t dark) ++ Shirt_others (mkObjectProps t dark))%list
   /\ List.length (Shirt_others (mkObjectProps t dark)) = 3
   /\ Forall (fun m => exists mat, used_materials (mesh_material m) = [mat]
                                   /\ map mat = None /\ bound_texture mat = None
                                   /\ material_color mat = shirt_tint dark)
        (Shirt_others (mkObjectProps t dark))
   /\ Color.dark_tone (shirt_tint true) = true
   /\ Color.light_tone (shirt_tint false) = true)
  /\ (let w := initialWorld false in
      let w' := dispatch (ObjectChange shirt) w in
      app w = mkAppState None box false
      /\ enabled (ObjectChange shirt) w
      /\ exists f, mounted w' = [f]
           /\ fiber_type f = cShirt
           /\ In (Mounted (fiber_id f)) (effects w')
           /\ Forall (fun m => List.map bound_texture (used_materials (mesh_material m))
                               = [None])
                (Shirt_front (fiber_props f))
           /\ Forall (fun m => List.map material_color (used_materials (mesh_material m))
                               = [shirt_tint false])
                (Shirt_others (fiber_props f))).
Proof.
  split.
  - destruct (Shirt_sub_meshes t dark) as ((front & Hf & Hm) & Hlen & Hall & Happ).
    split; [exists front; split; [exact Hf | rewrite Hm; reflexivity]|].
    split; [exact Happ|]. split; [exact Hlen|]. split; [exact Hall|].
    split; reflexivity.
  - cbn zeta. split; [reflexivity|].
    split; [split; [cbn; tauto | discriminate]|].
    eexists. split; [reflexivity|]. split; [reflexivity|].
    split; [cbn; tauto|]. split; repeat constructor.
Qed.

(** ** The file input *)

(** No file: nothing changes. *)
Lemma handleFileChange_no_file (uuid : string) (event : FileChangeEvent)
    (st : BlobStore * AppState) :
  first_file event = None -> handleFileChange uuid event st = st.
Proof. intros H. unfold handleFileChange. rewrite H. now destruct st. Qed.

(** A file whose type fails the test: nothing changes. *)
Lemma handleFileChange_rejected (uuid : string) (event : FileChangeEvent)
    (file : File) (st : BlobStore * AppState) :
  first_file event = Some file ->
  String_match (file_type file) "image.*" = false ->
  handleFileChange uuid event st = st.
Proof.
  intros H1 H2. unfold handleFileChange. rewrite H1, H2. now destruct st.
Qed.

(** A file whose type passes the test: the texture source becomes a new blob
    URL, whatever it was. *)
Lemma handleFileChange_accepted (uuid : string) (event : FileChangeEvent)
    (file : File) (store : BlobStore) (s : AppState) :
  first_file event = Some file ->
  String_match (file_type file) "image.*" = true ->
  handleFileChange uuid event (store, s)
  = (("blob:" ++ uuid, file) :: store, setTextureUrl ("blob:" ++ uuid) s).
Proof. intros H1 H2. unfold handleFileChange. now rewrite H1, H2. Qed.

(** Every media type of top-level type [image] passes the test. *)
Lemma image_type_matches (t : string) :
  is_image_media_type t = true -> String_match t "image.*" = true.
Proof.
  unfold is_image_media_type. intros H.
  do 6 (destruct t as [|? t]; [discriminate H|];
        cbn [prefix] in H;
        match type of H with
        | context [ascii_dec ?a ?b] => destruct (ascii_dec a b) as [<-|]; [|discriminate H]
        end).
  reflexivity.
Qed.

(** The test passes only on a type with [image] somewhere in it. *)
Lemma match_needs_image (t : string) :
  String_match t "image.*" = true ->
  exists before after, t = (before ++ "image" ++ after)%string.
Proof.
  unfold String_match. cbn [RegExp.parse RegExp.is_star RegExp.atom_of RegExp.is_dot
    Ascii.eqb Bool.eqb]. cbv beta iota.
  induction t as [|c t IH]; cbn [RegExp.search]; intros H.
  - discriminate H.
  - apply orb_true_iff in H. destruct H as [H|H].
    + exists "". cbn [append].
      cbn [RegExp.match_here] in H.
      apply andb_true_iff in H. destruct H as [E1 H].
      destruct t as [|c2 t]; [discriminate H|].
      apply andb_true_iff in H. destruct H as [E2 H].
      destruct t as [|c3 t]; [discriminate H|].
      apply andb_true_iff in H. destruct H as [E3 H].
      destruct t as [|c4 t]; [discriminate H|].
      apply andb_true_iff in H. destruct H as [E4 H].
      destruct t as [|c5 t]; [discriminate H|].
      apply andb_true_iff in H. destruct H as [E5 H].
      cbn [RegExp.atom_matches] in *.
      apply Ascii.eqb_eq in E1, E2, E3, E4, E5. subst.
      now exists t.
    + destruct (IH H) as (before & after & ->).
      now exists (String c before), after.
Qed.

(** C3, at a disk image.  The file input asks for [image/*], and a file of
    type [application/x-apple-diskimage] is not of that kind; yet its type
    passes the handler's test, since the pattern is searched for anywhere in
    the type, and the texture source is replaced by a blob URL for it. *)
Theorem handleFileChange_takes_disk_image :
  let file := mkFile "setup.dmg" "application/x-apple-diskimage" false in
  let event := mkFileChangeEvent (Some [file]) in
  let s := initialState false in
  first_file event = Some file
  /\ is_image_media_type (file_type file) = false
  /\ String_match (file_type file) "image.*" = true
  /\ handleFileChange "7" event ([], s)
     = ([("blob:7", file)], setTextureUrl "blob:7" s)
  /\ textureUrl (snd (handleFileChange "7" event ([], s))) <> textureUrl s
  /\ textureUrl (app (dispatch (FileChange event "7") (initialWorld false)))
     = Some "blob:7".
Proof.
  cbn zeta. repeat split; try reflexivity. cbn. discriminate.
Qed.

(** * Further properties *)

(** ** The media type test *)

(** X1.  The handler's test passes exactly on the media types in which the
    letters [image] occur, at whatever place. *)
Theorem match_image_iff_occurs (t : string) :
  String_match t "image.*" = true <-> occurs_in "image" t.
Proof.
  split.
  - unfold String_match.
    change (RegExp.parse "image.*")
      with [(RegExp.Lit "i"%char, false); (RegExp.Lit "m"%char, false);
            (RegExp.Lit "a"%char, false); (RegExp.Lit "g"%char, false);
            (RegExp.Lit "e"%char, false); (RegExp.Dot, true)].
    induction t as [|c t IH]; cbn [RegExp.search]; intros H.
    + discriminate H.
    + apply orb_true_iff in H. destruct H as [H|H].
      * exists "". cbn [append]. cbn [RegExp.match_here] in H.
        apply andb_true_iff in H. destruct H as [E1 H].
        destruct t as [|c2 t]; [discriminate H|].
        apply andb_true_iff in H. destruct H as [E2 H].
        destruct t as [|c3 t]; [discriminate H|].
        apply andb_true_iff in H. destruct H as [E3 H].
        destruct t as [|c4 t]; [discriminate H|].
        apply andb_true_iff in H. destruct H as [E4 H].
        destruct t as [|c5 t]; [discriminate H|].
        apply andb_true_iff in H. destruct H as [E5 _].
        cbn [RegExp.atom_matches] in *.
        apply Ascii.eqb_eq in E1, E2, E3, E4, E5. subst.
        now exists t.
      * destruct (IH H) as (before & after & ->).
        now exists (String c before), after.
  - intros (before & after & ->). unfold String_match.
    remember (RegExp.parse "image.*") as re eqn:Hre.
    induction before as [|c before IH].
    + subst re. destruct after; reflexivity.
    + cbn [append RegExp.search] in *. rewrite IH. apply orb_true_r.
Qed.

(** ** The file handler *)

(** X2.  A file of top-level type [image] always replaces the texture source,
    whatever it was, with the blob URL made for that very file: the store
    gets the URL with the file at its head, so that the URL stands for the
    file, and the object kind and the theme stay. *)
Theorem image_file_replaces_source (uuid : string) (event : FileChangeEvent)
    (file : File) (store : BlobStore) (s : AppState) :
  first_file event = Some file ->
  is_image_media_type (file_type file) = true ->
  handleFileChange uuid event (store, s)
  = (("blob:" ++ uuid, file) :: store,
     mkAppState (Some ("blob:" ++ uuid)) (selectedObject s) (darkMode s))
  /\ resolve ("blob:" ++ uuid) (fst (handleFileChange uuid event (store, s)))
     = Some file.
Proof.
  intros Hfile Himg.
  assert (H : handleFileChange uuid event (store, s)
              = (("blob:" ++ uuid, file) :: store,
                 mkAppState (Some ("blob:" ++ uuid)) (selectedObject s) (darkMode s))).
  { unfold handleFileChange. rewrite Hfile.
    now rewrite (image_type_matches _ Himg). }
  split; [exact H|]. rewrite H. apply resolve_latest.
Qed.

Lemma image_file_replaces_source_witness :
  let photo := mkFile "photo.webp" "image/webp" true in
  let notes := mkFile "notes.txt" "text/plain" false in
  let old := mkFile "old.png" "image/png" true in
  let event := mkFileChangeEvent (Some [photo; notes]) in
  let s := mkAppState (Some "blob:0") mug true in
  first_file event = Some photo
  /\ is_image_media_type "image/webp" = true
  /\ handleFileChange "1" event ([("blob:0", old)], s)
     = ([("blob:1", photo); ("blob:0", old)], mkAppState (Some "blob:1") mug true)
  /\ resolve "blob:1" (fst (handleFileChange "1" event ([("blob:0", old)], s)))
     = Some photo.
Proof.
  intros photo notes old event s. split; [reflexivity|]. split; [reflexivity|].
  exact (@image_file_replaces_source "1" event photo [("blob:0", old)] s
           eq_refl eq_refl).
Defined.

(** X3.  When there is no first file, or its type fails the test, the event
    changes nothing and commits nothing: state, blob store and mounted tree
    are as before, no instance is mounted, updated or unmounted.  Only the
    first file counts. *)
Theorem ignored_file_commits_nothing (w : World) (event : FileChangeEvent)
    (uuid : string) :
  (forall file, first_file event = Some file ->
                String_match (file_type file) "image.*" = false) ->
  dispatch (FileChange event uuid) w
  = mkWorld (app w) (blobs w) (root w) (next_id w) [].
Proof.
  intros H. apply dispatch_ignored.
  destruct (first_file event) as [file|]; [now apply H | exact I].
Qed.

Lemma ignored_file_commits_nothing_witness :
  let event := mkFileChangeEvent
                 (Some [mkFile "report.pdf" "application/pdf" false; mkFile "a.png" "image/png" true]) in
  let w := initialWorld false in
  (forall file, first_file event = Some file ->
                String_match (file_type file) "image.*" = false)
  /\ dispatch (FileChange event "1") w
     = mkWorld (app w) (blobs w) (root w) (next_id w) [].
Proof.
  intros event w.
  assert (H : forall file, first_file event = Some file ->
                           String_match (file_type file) "image.*" = false).
  { intros file [= <-]. reflexivity. }
  split; [exact H|]. exact (@ignored_file_commits_nothing w event "1" H).
Defined.

(** X4.  Whatever the event, the file handler leaves the object kind and the
    theme alone, and it either changes nothing or adds one URL to the blob
    store, for the first file of the event, and makes it the texture source;
    it never takes a URL out of the store. *)
Theorem handleFileChange_frame (uuid : string) (event : FileChangeEvent)
    (store : BlobStore) (s : AppState) :
  let st' := handleFileChange uuid event (store, s) in
  selectedObject (snd st') = selectedObject s
  /\ darkMode (snd st') = darkMode s
  /\ (st' = (store, s)
      \/ exists file,
           first_file event = Some file
           /\ st' = (("blob:" ++ uuid, file) :: store,
                     setTextureUrl ("blob:" ++ uuid) s)).
Proof.
  cbn zeta. unfold handleFileChange.
  destruct (first_file event) as [file|]; [|now repeat split; try left].
  destruct (String_match (file_type file) "image.*"); cbn.
  - repeat split. right. now exists file.
  - repeat split. now left.
Qed.

(** ** The blob store *)

(** X5.  In every reachable world the texture source is the blob URL made
    last, or absent when none was made; the URLs of the store are distinct
    and all of the [blob:] scheme. *)
Theorem source_is_latest_blob (w : World) :
  reachable w ->
  textureUrl (app w) = hd_error (blob_urls (blobs w))
  /\ NoDup (blob_urls (blobs w))
  /\ Forall (fun u => prefix "blob:" u = true) (blob_urls (blobs w)).
Proof.
  induction 1 as [b|w e Hr (IHsrc & IHnd & IHall) He _].
  - cbn. repeat split; constructor.
  - assert (Hrun : root w <> None).
    { destruct (cons_shape (reachable_consistent Hr)) as (sid & fid & (H & _)).
      rewrite H. discriminate. }
    rewrite (@dispatch_blobs e w Hrun), (@dispatch_app e w Hrun).
    destruct (handle_cases e (blobs w) (app w))
      as [(Hb & Hu)|(event & uuid & file & -> & _ & _ & Hnew)].
    + rewrite Hb, Hu. now repeat split.
    + rewrite Hnew. cbn [enabled] in He. cbn [fst snd blob_urls List.map].
      split; [reflexivity|]. split.
      * constructor; assumption.
      * constructor; [destruct uuid; reflexivity | assumption].
Qed.

Lemma source_is_latest_blob_witness :
  let a := mkFile "a.png" "image/png" true in
  let b := mkFile "b.gif" "image/gif" true in
  let w := dispatch (FileChange (mkFileChangeEvent (Some [b])) "2")
             (dispatch (ObjectChange shirt)
                (dispatch (FileChange (mkFileChangeEvent (Some [a])) "1")
                   (initialWorld true))) in
  reachable w
  /\ blobs w = [("blob:2", b); ("blob:1", a)]
  /\ textureUrl (app w) = hd_error (blob_urls (blobs w))
  /\ NoDup (blob_urls (blobs w))
  /\ Forall (fun u => prefix "blob:" u = true) (blob_urls (blobs w)).
Proof.
  intros a b w.
  assert (Hr : reachable w).
  { apply reachable_step; [apply reachable_step; [apply reachable_step| |]| |].
    - apply reachable_init.
    - cbn. tauto.
    - discriminate.
    - split; [cbn; tauto | discriminate].
    - discriminate.
    - cbn. intros [H|[]]. discriminate H.
    - discriminate. }
  split; [exact Hr|]. split; [reflexivity|].
  exact (@source_is_latest_blob w Hr).
Defined.

(** X6.  A blob URL, once made, is never released: whatever happens later,
    the store still has every URL it had, with its file and in the same
    order, below the ones made since. *)
Theorem blobs_never_released (w w' : World) :
  later w w' -> exists since, blobs w' = (since ++ blobs w)%list.
Proof.
  induction 1 as [|w' e _ (since & IH) _].
  - now exists [].
  - destruct (root w') as [r|] eqn:Hroot.
    + assert (Hrun : root w' <> None) by congruence.
      rewrite (@dispatch_blobs e w' Hrun).
      destruct (handle_cases e (blobs w') (app w'))
        as [(Hb & _)|(event & uuid & file & -> & _ & _ & Hnew)].
      * rewrite Hb. now exists since.
      * rewrite Hnew. cbn [fst]. exists (("blob:" ++ uuid, file) :: since).
        rewrite IH. reflexivity.
    + rewrite (@dispatch_dead w' e Hroot). cbn. now exists since.
Qed.

Lemma blobs_never_released_witness :
  let a := mkFile "a.png" "image/png" true in
  let b := mkFile "b.gif" "image/gif" true in
  let w := dispatch (FileChange (mkFileChangeEvent (Some [a])) "1")
             (initialWorld true) in
  let w' := dispatch (FileChange (mkFileChangeEvent (Some [b])) "2")
              (dispatch ThemeToggle w) in
  later w w'
  /\ blobs w = [("blob:1", a)]
  /\ exists since, blobs w' = (since ++ blobs w)%list.
Proof.
  intros a b w w'.
  assert (Hl : later w w').
  { apply later_step; [apply later_step; [apply later_refl | exact I]|].
    cbn. intros [H|[]]. discriminate H. }
  split; [exact Hl|]. split; [reflexivity|].
  exact (@blobs_never_released w w' Hl).
Defined.

(** ** What stays across an event *)

(** X7.  A change of object kind keeps the [Scene] instance, which is updated
    and not unmounted, and keeps the texture: the new presenter holds on its
    texture-designated region the very texture the old one held.  The
    texture source, the theme and the blob store are untouched. *)
Theorem object_change_keeps_texture (w : World) (k : ObjectType) :
  reachable w -> enabled (ObjectChange k) w ->
  let w' := dispatch (ObjectChange k) w in
  (exists r r', root w = Some r /\ root w' = Some r'
                /\ scene_id r' = scene_id r
                /\ In (Updated (scene_id r)) (effects w')
                /\ ~ In (Unmounted (scene_id r)) (effects w'))
  /\ scene_textures w' = scene_textures w
  /\ shows w' (option_map mkTexture (textureUrl (app w)))
  /\ textureUrl (app w') = textureUrl (app w)
  /\ darkMode (app w') = darkMode (app w)
  /\ blobs w' = blobs w.
Proof.
  intros Hr He w'. pose proof (reachable_consistent Hr) as Hc.
  assert (Hc' : consistent w').
  { apply consistent_dispatch; [assumption | assumption |].
    now apply dispatch_runs. }
  destruct (cons_shape Hc) as (sid & fid & Hs).
  destruct He as [Hk Hd].
  pose proof Hs as (Hroot & Hne & Hsid & Hfid).
  destruct (@dispatch_object w sid fid k Hc Hs Hk Hd)
    as (effs & Hw' & _ & _ & _ & Hupd & Hun).
  assert (Hu : textureUrl (app w') = textureUrl (app w)).
  { unfold w'. rewrite Hw'. reflexivity. }
  split.
  - do 2 eexists. split; [exact Hroot|].
    split; [unfold w'; rewrite Hw'; reflexivity|].
    cbn [scene_id]. split; [reflexivity|]. unfold w'. rewrite Hw'. cbn [effects].
    split; [exact Hupd|]. intros Hin. apply Hne. exact (Hun _ Hin).
  - split; [|split; [|split; [exact Hu|split; unfold w'; rewrite Hw'; reflexivity]]].
    + rewrite (scene_textures_consistent Hc'), (scene_textures_consistent Hc), Hu.
      reflexivity.
    + rewrite <- Hu. apply shows_consistent. exact Hc'.
Qed.

Lemma object_change_keeps_texture_witness :
  let a := mkFile "a.png" "image/png" true in
  let w := dispatch (FileChange (mkFileChangeEvent (Some [a])) "1")
             (initialWorld false) in
  let w' := dispatch (ObjectChange cylinder) w in
  reachable w
  /\ enabled (ObjectChange cylinder) w
  /\ scene_textures w = [mkTexture "blob:1"]
  /\ (exists r r', root w = Some r /\ root w' = Some r'
                   /\ scene_id r' = scene_id r
                   /\ In (Updated (scene_id r)) (effects w')
                   /\ ~ In (Unmounted (scene_id r)) (effects w'))
  /\ scene_textures w' = scene_textures w
  /\ shows w' (option_map mkTexture (textureUrl (app w)))
  /\ textureUrl (app w') = textureUrl (app w)
  /\ darkMode (app w') = darkMode (app w)
  /\ blobs w' = blobs w.
Proof.
  intros a w w'.
  assert (Hr : reachable w).
  { apply reachable_step; [apply reachable_init | cbn; tauto | discriminate]. }
  assert (He : enabled (ObjectChange cylinder) w).
  { split; [cbn; tauto | discriminate]. }
  split; [exact Hr|]. split; [exact He|]. split; [reflexivity|].
  exact (@object_change_keeps_texture w cylinder Hr He).
Defined.

(** X8.  A theme toggle mounts nothing and unmounts nothing: the commit
    updates the instances that are there, one by one, and the scene holds
    the same textures as before.  Neither the blob store nor the supply of
    instance ids moves. *)
Theorem toggle_keeps_instances (w : World) :
  reachable w ->
  let w' := dispatch ThemeToggle w in
  effects w' = List.map Updated (mounted_ids w)
  /\ mounted_ids w' = mounted_ids w
  /\ scene_textures w' = scene_textures w
  /\ blobs w' = blobs w
  /\ next_id w' = next_id w.
Proof.
  intros Hr w'. pose proof (reachable_consistent Hr) as Hc.
  assert (Hc' : consistent w').
  { apply consistent_dispatch; [assumption | exact I |].
    now apply dispatch_runs. }
  destruct (cons_shape Hc) as (sid & fid & Hs).
  pose proof (@dispatch_toggle w sid fid Hc Hs) as Hw'.
  assert (Hs' : shaped w' sid fid).
  { destruct Hs as (_ & ? & ? & ?). unfold w'. rewrite Hw'.
    repeat split; cbn; first [reflexivity | assumption]. }
  destruct (@mounted_consistent w sid fid Hc Hs) as (c & _ & _ & Hids).
  destruct (@mounted_consistent w' sid fid Hc' Hs') as (c' & _ & _ & Hids').
  rewrite Hids', Hids.
  rewrite (scene_textures_consistent Hc'), (scene_textures_consistent Hc).
  unfold w'. rewrite Hw'. cbn. repeat split.
Qed.

Lemma toggle_keeps_instances_witness :
  let w := dispatch (ObjectChange mug) (initialWorld false) in
  let w' := dispatch ThemeToggle w in
  reachable w
  /\ effects w' = [Updated 0; Updated 2]
  /\ effects w' = List.map Updated (mounted_ids w)
  /\ mounted_ids w' = mounted_ids w
  /\ scene_textures w' = scene_textures w
  /\ blobs w' = blobs w
  /\ next_id w' = next_id w.
Proof.
  intros w w'.
  assert (Hr : reachable w).
  { apply reachable_step;
      [apply reachable_init | split; [cbn; tauto | discriminate] | discriminate]. }
  split; [exact Hr|]. split; [reflexivity|].
  exact (@toggle_keeps_instances w Hr).
Defined.

(** X9.  Two theme toggles in a row bring the application back: the state,
    the blob store and the mounted tree, instance for instance and prop for
    prop, are those from before the first. *)
Theorem toggle_twice (w : World) :
  reachable w ->
  let w'' := dispatch ThemeToggle (dispatch ThemeToggle w) in
  app w'' = app w /\ blobs w'' = blobs w /\ root w'' = root w
  /\ next_id w'' = next_id w.
Proof.
  intros Hr w''. pose proof (reachable_consistent Hr) as Hc.
  set (w' := dispatch ThemeToggle w) in *.
  assert (Hc' : consistent w').
  { apply consistent_dispatch; [assumption | exact I |].
    now apply dispatch_runs. }
  destruct (cons_shape Hc) as (sid & fid & Hs).
  pose proof (@dispatch_toggle w sid fid Hc Hs) as Hw'.
  fold w' in Hw'.
  assert (Hs' : shaped w' sid fid).
  { destruct Hs as (_ & ? & ? & ?). rewrite Hw'.
    repeat split; cbn; first [reflexivity | assumption]. }
  pose proof (@dispatch_toggle w' sid fid Hc' Hs') as Hw''.
  fold w'' in Hw''. rewrite Hw'', Hw'. cbn [app blobs root next_id].
  assert (Hback : toggleDarkMode (toggleDarkMode (app w)) = app w).
  { destruct (app w) as [u o d]. unfold toggleDarkMode, setDarkMode. cbn.
    now rewrite negb_involutive. }
  rewrite Hback. destruct Hs as (Hroot & _). rewrite Hroot.
  repeat split.
Qed.

Lemma toggle_twice_witness :
  let upload := mkFileChangeEvent (Some [mkFile "a.png" "image/png" true]) in
  let w := dispatch (FileChange upload "1") (initialWorld true) in
  let w'' := dispatch ThemeToggle (dispatch ThemeToggle w) in
  reachable w
  /\ app w'' = app w /\ blobs w'' = blobs w /\ root w'' = root w
  /\ next_id w'' = next_id w.
Proof.
  intros upload w w''.
  assert (Hr : reachable w).
  { apply reachable_step; [apply reachable_init | cbn; tauto | discriminate]. }
  split; [exact Hr|]. exact (@toggle_twice w Hr).
Defined.

(** ** The preview and the key *)

(** X10.  The preview block and the scene always go by the same source: in a
    reachable world the preview is rendered exactly when a texture source is
    set, its image is that source, the source has loaded, and the scene
    holds the texture loaded from the same URL and no other. *)
Theorem preview_matches_scene (w : World) :
  reachable w ->
  TexturePreview (app w) = textureUrl (app w)
  /\ scene_textures w
     = match TexturePreview (app w) with
       | Some src => [mkTexture src]
       | None => []
       end
  /\ Forall (fun src => useTexture (blobs w) src = Some (mkTexture src))
       (present [TexturePreview (app w)]).
Proof.
  intros Hr. pose proof (reachable_consistent Hr) as Hc.
  assert (Hp : TexturePreview (app w) = textureUrl (app w)).
  { unfold TexturePreview. destruct (textureUrl (app w)) as [u|] eqn:Hu; [|reflexivity].
    destruct (@cons_url w Hc u Hu) as (_ & uuid & ->). reflexivity. }
  split; [exact Hp|]. rewrite Hp. split; [apply scene_textures_consistent; exact Hc|].
  destruct (textureUrl (app w)) as [u|] eqn:Hu; cbn; constructor; [|constructor].
  exact (@cons_loaded w Hc u Hu).
Qed.

Lemma preview_matches_scene_witness :
  let a := mkFile "a.png" "image/png" true in
  let w := dispatch (FileChange (mkFileChangeEvent (Some [a])) "1")
             (initialWorld false) in
  reachable w
  /\ TexturePreview (app w) = Some "blob:1"
  /\ TexturePreview (app w) = textureUrl (app w)
  /\ scene_textures w
     = match TexturePreview (app w) with
       | Some src => [mkTexture src]
       | None => []
       end
  /\ Forall (fun src => useTexture (blobs w) src = Some (mkTexture src))
       (present [TexturePreview (app w)]).
Proof.
  intros a w.
  assert (Hr : reachable w).
  { apply reachable_step; [apply reachable_init | cbn; tauto | discriminate]. }
  split; [exact Hr|]. split; [reflexivity|]. exact (@preview_matches_scene w Hr).
Defined.

(** X11.  Between reachable worlds the key given to [Scene] tells texture
    sources apart: two worlds have the same key exactly when they have the
    same source.  This rests on the sources being blob URLs; as strings go,
    the key of no source and the key of the source [null] are the same. *)
Theorem scene_key_tracks_source (w1 w2 : World) :
  reachable w1 -> reachable w2 ->
  (key (App (app w1)) = key (App (app w2))
   <-> textureUrl (app w1) = textureUrl (app w2))
  /\ option_map scene_key (root w1) = Some (key (App (app w1)))
  /\ key_string None = key_string (Some "null").
Proof.
  intros Hr1 Hr2.
  pose proof (reachable_consistent Hr1) as Hc1.
  pose proof (reachable_consistent Hr2) as Hc2.
  split; [|split; [|reflexivity]].
  - cbn [key App]. split; [|now intros ->].
    destruct (textureUrl (app w1)) as [u1|] eqn:H1,
             (textureUrl (app w2)) as [u2|] eqn:H2; cbn [key_string]; intros E.
    + now rewrite E.
    + destruct (@cons_url w1 Hc1 u1 H1) as (_ & uuid & ->). discriminate E.
    + destruct (@cons_url w2 Hc2 u2 H2) as (_ & uuid & ->). discriminate E.
    + reflexivity.
  - destruct (cons_shape Hc1) as (sid & fid & (Hroot & _)). rewrite Hroot.
    reflexivity.
Qed.

Lemma scene_key_tracks_source_witness :
  let a := mkFile "a.png" "image/png" true in
  let w1 := initialWorld false in
  let w2 := dispatch (FileChange (mkFileChangeEvent (Some [a])) "1") w1 in
  reachable w1 /\ reachable w2
  /\ key (App (app w1)) = "null" /\ key (App (app w2)) = "blob:1"
  /\ (key (App (app w1)) = key (App (app w2))
      <-> textureUrl (app w1) = textureUrl (app w2))
  /\ option_map scene_key (root w1) = Some (key (App (app w1))).
Proof.
  intros a w1 w2.
  assert (Hr1 : reachable w1) by apply reachable_init.
  assert (Hr2 : reachable w2).
  { apply reachable_step; [exact Hr1 | cbn; tauto | discriminate]. }
  split; [exact Hr1|]. split; [exact Hr2|]. split; [reflexivity|].
  split; [reflexivity|].
  destruct (@scene_key_tracks_source w1 w2 Hr1 Hr2) as (H1 & H2 & _).
  split; [exact H1 | exact H2].
Defined.

(** ** The scene composer, on any props *)

(** X12.  Whatever props and blob store it gets, [Scene] throws exactly when
    the URL is a non-empty string whose texture does not load.  Otherwise it
    composes at most one presenter, and exactly one unless the kind is
    [sphere]; the presenter is the one paired with the kind, it gets the
    theme flag as it is, and it gets a texture exactly when the URL is a
    non-empty string: for the empty string, as for [null], no texture is
    loaded. *)
Theorem Scene_passes_props (store : BlobStore) (url : option string)
    (o : ObjectType) (dark : bool) :
  (Scene store (mkSceneProps url o dark) = None
   <-> exists u, url = Some u /\ truthy url = true /\ useTexture store u = None)
  /\ Forall (fun slots =>
               List.map el_type (present slots)
               = match presenter_of o with Some c => [c] | None => [] end
               /\ Forall (fun e =>
                            op_darkMode (el_props e) = dark
                            /\ texture (el_props e)
                               = (if truthy url then option_map mkTexture url
                                  else None))
                    (present slots))
       (present [Scene store (mkSceneProps url o dark)])
  /\ Scene store (mkSceneProps (Some "") o dark)
     = Scene store (mkSceneProps None o dark)
  /\ Scene store (mkSceneProps None o dark) <> None.
Proof.
  split; [|split; [|split; [reflexivity | discriminate]]].
  - unfold Scene. cbn [sp_textureUrl sp_selectedObject sp_darkMode].
    destruct url as [u|].
    + destruct (truthy (Some u)) eqn:Ht.
      * destruct (useTexture store u) eqn:Hl; cbn; split.
        -- discriminate.
        -- intros (v & [= <-] & _ & H). congruence.
        -- intros _. now exists u.
        -- reflexivity.
      * split; [discriminate|]. intros (v & _ & H & _). discriminate H.
    + split; [discriminate|]. intros (v & H & _). discriminate H.
  - unfold Scene. cbn [sp_textureUrl sp_selectedObject sp_darkMode].
    destruct url as [u|].
    + destruct (truthy (Some u)) eqn:Ht.
      * destruct (useTexture store u) as [t|] eqn:Hl; cbn; [|constructor].
        assert (t = mkTexture u).
        { unfold useTexture in Hl. destruct (resolve u store) as [f|]; [|discriminate].
          destruct (file_decodes f); congruence. }
        subst t. constructor; [|constructor].
        destruct o; split; repeat constructor.
      * cbn. constructor; [|constructor].
        destruct o; split; repeat constructor.
    + cbn. constructor; [|constructor].
      destruct o; split; repeat constructor.
Qed.

(** ** The cylinder, the mug and the table of presenters *)

(** X13.  For every texture and theme the [Cylinder] gives each of the three
    groups of its geometry a material; the lateral surface alone is given
    the texture, and both caps the flat theme colour of the [Box] faces. *)
Theorem Cylinder_lateral_only (t : option Texture) (dark : bool) :
  let props := mkObjectProps t dark in
  filter (fun p => match Cylinder_part props p with
                   | Some m => textured m
                   | None => false
                   end) [lateral; top_cap; bottom_cap] = [lateral]
  /\ (exists m, Cylinder_part props lateral = Some m /\ bound_texture m = t)
  /\ Forall (fun p => exists m, Cylinder_part props p = Some m
                                /\ bound_texture m = None
                                /\ material_color m = flat_tone dark)
       [top_cap; bottom_cap].
Proof.
  cbn zeta. split; [reflexivity|]. split.
  - eexists. split; reflexivity.
  - repeat constructor; eexists; (split; [reflexivity|]); split;
      destruct dark; reflexivity.
Qed.

(** X14.  The [Mug] is one mesh with one material, which has both the texture
    and the theme colour; it is the one presenter whose texture-designated
    region changes colour with the theme.  In dark mode that colour is the
    library default, so there the mug's material differs from the textured
    material of the others in nothing but where it is attached. *)
Theorem Mug_tinted_texture (t : option Texture) (dark : bool) :
  (exists m, regions (Mug (mkObjectProps t dark)) = [m]
             /\ map m = Some t /\ material_color m = flat_tone dark)
  /\ flat_regions (Mug (mkObjectProps t dark)) = []
  /\ Forall (fun c =>
               List.map material_color
                 (textured_regions (render c (mkObjectProps t dark)))
               = List.map material_color
                   (textured_regions (render c (mkObjectProps t (negb dark))))
               <-> c <> cMug)
       [cBox; cCylinder; cMug; cShirt]
  /\ List.map material_color (regions (Mug (mkObjectProps t true)))
     = [Color.default].
Proof.
  split; [eexists; split; [reflexivity|]; split; destruct dark; reflexivity|].
  split; [reflexivity|]. split; [|reflexivity].
  repeat (apply Forall_cons || apply Forall_nil); destruct dark; split;
    first [ discriminate
          | reflexivity
          | intros _; reflexivity
          | intros H; vm_compute in H; discriminate H
          | intros _ H; discriminate H
          | intros H; exfalso; apply H; reflexivity ].
Qed.

(** X15.  The table of presenters: whatever the texture and the theme, each
    presenter has exactly one texture-designated region, holding the texture
    it was given, and a fixed number of flat regions, five for the [Box],
    two for the [Cylinder], none for the [Mug] and three for the [Shirt],
    none of which holds a texture. *)
Theorem presenter_table (c : Component) (t : option Texture) (dark : bool) :
  List.map bound_texture (textured_regions (render c (mkObjectProps t dark))) = [t]
  /\ List.length (flat_regions (render c (mkObjectProps t dark)))
     = match c with cBox => 5 | cCylinder => 2 | cMug => 0 | cShirt => 3 end
  /\ Forall (fun m => bound_texture m = None)
       (flat_regions (render c (mkObjectProps t dark)))
  /\ List.length (regions (render c (mkObjectProps t dark)))
     = List.length (textured_regions (render c (mkObjectProps t dark)))
       + List.length (flat_regions (render c (mkObjectProps t dark))).
Proof.
  destruct c; (split; [reflexivity|]); (split; [reflexivity|]);
    (split; [repeat constructor | reflexivity]).
Qed.

(** ** The theme, outside the scene *)

(** X16.  The panel and the canvas follow the one theme flag: the outermost
    element has the class [dark], which switches the style sheet's dark
    variants, exactly in dark mode, next to [min-h-screen] which it always
    has; and the canvas background is a dark tone exactly in dark mode and a
    light tone otherwise.  A toggle flips both. *)
Theorem theme_is_coherent (s : AppState) :
  dark_variant_on s = darkMode s
  /\ In "min-h-screen" (class_tokens (rootClassName s))
  /\ Color.setStyle (canvasBackground s) = Some (background_color s)
  /\ Color.dark_tone (background_color s) = darkMode s
  /\ Color.light_tone (background_color s) = negb (darkMode s)
  /\ dark_variant_on (toggleDarkMode s) = negb (dark_variant_on s)
  /\ background_color (toggleDarkMode s) <> background_color s.
Proof.
  destruct s as [u o []]; repeat split; try (cbn; tauto);
    vm_compute; discriminate.
Qed.

(** X17.  Under either theme no flat region of any presenter has the colour
    of the canvas background: a face without a texture never blends into
    it. *)
Theorem flat_regions_stand_out (c : Component) (t : option Texture) (s : AppState) :
  Forall (fun m => material_color m <> background_color s)
    (flat_regions (render c (mkObjectProps t (darkMode s)))).
Proof.
  destruct s as [u o []], c;
    repeat (apply Forall_cons || apply Forall_nil); vm_compute; discriminate.
Qed.

(** ** The mounted scene and the state *)

(** X18.  What is mounted is never stale: in every reachable world [Scene]
    renders for the current state, the mounted presenters are, type for
    type and prop for prop, the elements it composes, under the key of the
    current texture source; and the instances mounted bear distinct ids. *)
Theorem mounted_in_sync (w : World) :
  reachable w ->
  Scene (blobs w) (scene_props (App (app w))) <> None
  /\ List.map (fun f => mkElement (fiber_type f) (fiber_props f)) (mounted w)
     = composed (blobs w) (scene_props (App (app w)))
  /\ option_map scene_key (root w) = Some (key (App (app w)))
  /\ NoDup (mounted_ids w)
  /\ Forall (fun id => id < next_id w) (mounted_ids w).
Proof.
  intros Hr. pose proof (reachable_consistent Hr) as Hc.
  destruct (cons_shape Hc) as (sid & fid & Hs).
  destruct (@mounted_consistent w sid fid Hc Hs) as (c & Hp & _ & Hids).
  pose proof Hs as (Hroot & Hne & Hsid & Hfid).
  pose proof (@App_renders w (app w) Hc eq_refl) as Hrender.
  split; [rewrite Hrender; discriminate|]. split; [|split; [|split]].
  - unfold composed. rewrite Hrender.
    unfold mounted. rewrite Hroot. cbn [scene_children]. unfold slots.
    generalize (Scene_fragment (option_map mkTexture (textureUrl (app w)))
                  (selectedObject (app w)) (darkMode (app w))). intros l.
    induction l as [|[e|] l IH]; cbn; [reflexivity| |exact IH].
    destruct e. cbn. f_equal. exact IH.
  - rewrite Hroot. reflexivity.
  - rewrite Hids. repeat constructor; cbn; intuition.
  - rewrite Hids. repeat constructor; assumption.
Qed.

Lemma mounted_in_sync_witness :
  let a := mkFile "a.png" "image/png" true in
  let w := dispatch ThemeToggle
             (dispatch (ObjectChange shirt)
                (dispatch (FileChange (mkFileChangeEvent (Some [a])) "1")
                   (initialWorld false))) in
  reachable w
  /\ mounted w = [mkFiber 4 cShirt (mkObjectProps (Some (mkTexture "blob:1")) true)]
  /\ Scene (blobs w) (scene_props (App (app w))) <> None
  /\ List.map (fun f => mkElement (fiber_type f) (fiber_props f)) (mounted w)
     = composed (blobs w) (scene_props (App (app w)))
  /\ option_map scene_key (root w) = Some (key (App (app w)))
  /\ NoDup (mounted_ids w)
  /\ Forall (fun id => id < next_id w) (mounted_ids w).
Proof.
  intros a w.
  assert (Hr : reachable w).
  { apply reachable_step; [apply reachable_step; [apply reachable_step| |]| |].
    - apply reachable_init.
    - cbn. tauto.
    - discriminate.
    - split; [cbn; tauto | discriminate].
    - discriminate.
    - exact I.
    - discriminate. }
  split; [exact Hr|]. split; [reflexivity|]. exact (@mounted_in_sync w Hr).
Defined.
